(** * libvhal VideoSink: the sink's framing, control reader and supervisor

    A shallow embedding of [VideoSink::Impl] (video_sink_impl.h) and of the
    data types of [VideoSink] (video_sink.h).  The transport behind
    [IStreamSocketClient] and the [poll] system call are external: they are
    an interface here, and every theorem of the generic part holds for every
    implementation of it.  A scripted transport gives concrete runs. *)

From Stdlib Require Import ZArith String List Bool Lia.
From Stdlib.Strings Require Import Byte.
Import ListNotations.
Open Scope Z_scope.

(** ** Object representation of integers *)

Module Repr.

Definition byte_of_Z (z : Z) : byte :=
  match Byte.of_N (Z.to_N (z mod 256)) with
  | Some b => b
  | None => x00
  end.

Definition Z_of_byte (b : byte) : Z := Z.of_N (Byte.to_N b).

(** The [w] low-order bytes of [z], least significant first. *)
Fixpoint le_bytes (w : nat) (z : Z) : list byte :=
  match w with
  | O => []
  | S w' => byte_of_Z z :: le_bytes w' (z / 256)
  end.

Fixpoint le_value (bs : list byte) : Z :=
  match bs with
  | [] => 0
  | b :: bs' => Z_of_byte b + 256 * le_value bs'
  end.

(** Byte order of the platform: the same bytes, most significant first on
    a big-endian machine. *)
Definition native_order (big_endian : bool) (bs : list byte) : list byte :=
  if big_endian then rev bs else bs.

(** The [w] bytes of the object representation of the unsigned value
    [z mod 2^(8w)]. *)
Definition to_bytes (big_endian : bool) (w : nat) (z : Z) : list byte :=
  native_order big_endian (le_bytes w z).

Definition unsigned_of_bytes (big_endian : bool) (bs : list byte) : Z :=
  le_value (native_order big_endian bs).

(** Two's complement reading of an unsigned [w]-byte value. *)
Definition to_signed (w : nat) (u : Z) : Z :=
  if u <? 2 ^ (8 * Z.of_nat w - 1) then u else u - 2 ^ (8 * Z.of_nat w).

Definition signed_of_bytes (big_endian : bool) (bs : list byte) : Z :=
  to_signed (length bs) (unsigned_of_bytes big_endian bs).

End Repr.

(** ** The data types of video_sink.h *)

Inductive VideoCodecType := kH264 | kI420.
Inductive FrameResolution := k480p | k720p | k1080p.
Inductive Command := kOpen | kClose | kNone.
Inductive VHalVersion := kV1 | kV2.

(** The enumerators' values; the underlying type of each [enum class] is
    [int]. *)
Definition VideoCodecType_value (c : VideoCodecType) : Z :=
  match c with kH264 => 0 | kI420 => 1 end.

Definition FrameResolution_value (r : FrameResolution) : Z :=
  match r with k480p => 0 | k720p => 1 | k1080p => 2 end.

Definition Command_value (c : Command) : Z :=
  match c with kOpen => 11 | kClose => 12 | kNone => 13 end.

Definition VHalVersion_value (v : VHalVersion) : Z :=
  match v with kV1 => 0 | kV2 => 1 end.

(** A field of enumeration type is filled from raw bytes by the reader, so it
    holds any [int]: the records keep the underlying value. *)
Record VideoParams := mkVideoParams {
  codec_type : Z;
  resolution : Z;
  reserved : list Z
}.

Record CtrlMessage := mkCtrlMessage {
  version : Z;
  cmd : Z;
  video_params : VideoParams
}.

(** [tuple<ssize_t, std::string>] *)
Definition IOResult : Type := Z * string.

Definition sizeof_int : nat := 4.
Definition sizeof_uint32_t : nat := 4.

(** [sizeof(VideoSink::CtrlMessage)]: four [int]-sized enumerations and
    [uint32_t reserved[4]], all of alignment 4, so no padding. *)
Definition sizeof_CtrlMessage : nat := 4 * sizeof_int + 4 * sizeof_uint32_t.

Section ObjectRepresentation.

Variable big_endian : bool.

Definition bytes_of_VideoParams (p : VideoParams) : list byte :=
  Repr.to_bytes big_endian sizeof_int (codec_type p)
  ++ Repr.to_bytes big_endian sizeof_int (resolution p)
  ++ flat_map (fun i => Repr.to_bytes big_endian sizeof_uint32_t
                          (nth i (reserved p) 0))
       (seq 0 4).

Definition bytes_of_CtrlMessage (m : CtrlMessage) : list byte :=
  Repr.to_bytes big_endian sizeof_int (version m)
  ++ Repr.to_bytes big_endian sizeof_int (cmd m)
  ++ bytes_of_VideoParams (video_params m).

(** The [n] bytes at offset [off] of a buffer. *)
Definition slice (off n : nat) (bs : list byte) : list byte :=
  firstn n (skipn off bs).

(** The record whose storage holds the given bytes (the reader receives
    into the storage of [ctrl_msg] through a [reinterpret_cast]): each
    member is read at its offset. *)
Definition CtrlMessage_of_bytes (bs : list byte) : CtrlMessage :=
  {| version := Repr.signed_of_bytes big_endian (slice 0 sizeof_int bs);
     cmd := Repr.signed_of_bytes big_endian (slice 4 sizeof_int bs);
     video_params :=
       {| codec_type :=
            Repr.signed_of_bytes big_endian (slice 8 sizeof_int bs);
          resolution :=
            Repr.signed_of_bytes big_endian (slice 12 sizeof_int bs);
          reserved :=
            map (fun i => Repr.unsigned_of_bytes big_endian
                            (slice (16 + 4 * i) sizeof_uint32_t bs))
              (seq 0 4) |} |}.

(** Storing [data] at the start of a buffer, as a receive into it does;
    the buffer keeps its size. *)
Definition store (data buf : list byte) : list byte :=
  firstn (length buf) (data ++ skipn (length data) buf).

Definition int_range (z : Z) : Prop := - 2 ^ 31 <= z < 2 ^ 31.

Definition uint32_t_range (z : Z) : Prop := 0 <= z < 2 ^ 32.

End ObjectRepresentation.

(** ** The collaborators: transport and readiness polling *)

(** The abstract class [IStreamSocketClient] (istream_socket_client.h), by
    the member functions the sink calls and the way it calls them.  [W] is
    the state of everything outside the sink (the socket, the peer, the
    operating system); a member function that may change it returns the new
    state.  [Send buf len] gets the bytes at the pointer and the length;
    [Recv len] returns, next to its result, the bytes it stored into the
    buffer. *)
Class IStreamSocketClient (W : Type) := {
  Connect : W -> (bool * string) * W;
  Connected : W -> bool;
  Send : list byte -> Z -> W -> IOResult * W;
  Recv : Z -> W -> (IOResult * list byte) * W;
  Reset : W -> W;
  NeedConnectionReset : W -> bool;
  ClearReset : W -> W;
  GetNativeSocketFd : W -> Z
}.

(** [poll(fds, 1, timeout)] on one descriptor: the return value, the
    [revents] it stored, and [errno]. *)
Class PollSyscall (W : Type) := {
  poll : Z -> Z -> Z -> W -> (Z * Z * Z) * W
}.

(** [POLLIN] of <sys/poll.h>. *)
Definition POLLIN : Z := 1.

(** How a call of the application's handler ends. *)
Inductive Completion := Normal | Raised.

(** [std::function<void(const CtrlMessage&)>]: the handler runs application
    code on the outside state. *)
Definition CameraCallback (W : Type) : Type :=
  CtrlMessage -> W -> Completion * W.

Inductive Exception :=
| system_error (code : Z)
| bad_function_call
| handler_exception.

(** Where the lambda of [vhal_talker_thread_] stands between two iterations
    of its loops. *)
Inductive ThreadState :=
| AtSupervisor            (* at [while (should_continue_)] *)
| AtPoll (fd : Z)         (* at the top of [do { ... } while (true)] *)
| Returned                (* the lambda returned: the thread can be joined *)
| Terminated (e : Exception).
                          (* an exception left the lambda: std::terminate *)

(** What the sink does to the outside, in order. *)
Inductive Event :=
| EvConnect (res : bool * string)
| EvSend (buf : list byte) (len : Z) (res : IOResult)
| EvRecv (len : Z) (res : IOResult) (data : list byte)
| EvReset
| EvClearReset
| EvPoll (fd events timeout : Z) (res : Z * Z * Z)
| EvSleep (ms : Z)
| EvCout (s : string)
| EvCallback (m : CtrlMessage) (c : Completion).

Definition is_Send (e : Event) : bool :=
  match e with EvSend _ _ _ => true | _ => false end.

Definition is_Connect (e : Event) : bool :=
  match e with EvConnect _ => true | _ => false end.

Definition is_Reset (e : Event) : bool :=
  match e with EvReset => true | _ => false end.

Definition is_Recv (e : Event) : bool :=
  match e with EvRecv _ _ _ => true | _ => false end.

Definition is_Callback (e : Event) : bool :=
  match e with EvCallback _ _ => true | _ => false end.

Definition is_Sleep (e : Event) : bool :=
  match e with EvSleep _ => true | _ => false end.

Module Sink.
Section Impl.

Context {W : Type} `{IStreamSocketClient W} `{PollSyscall W}.

(** The platform: [sizeof(size_t)] and the byte order. *)
Variable size_t_bytes : nat.
Variable big_endian : bool.

(** The indeterminate content of [reserved[4]] in a default-initialised
    [CtrlMessage]: the default member initialisers leave it unset. *)
Variable indeterminate : list Z.

(** The members of [VideoSink::Impl]; [events] is the record of the calls
    made so far, oldest first (not a member). *)
Record Impl := mkImpl {
  callback_ : option (CameraCallback W);
  socket_client_ : W;
  vhal_talker_thread_ : ThreadState;
  should_continue_ : bool;
  events : list Event
}.

Definition with_socket (w : W) (s : Impl) : Impl :=
  mkImpl (callback_ s) w (vhal_talker_thread_ s) (should_continue_ s)
    (events s).

Definition with_thread (t : ThreadState) (s : Impl) : Impl :=
  mkImpl (callback_ s) (socket_client_ s) t (should_continue_ s) (events s).

Definition record (e : Event) (s : Impl) : Impl :=
  mkImpl (callback_ s) (socket_client_ s) (vhal_talker_thread_ s)
    (should_continue_ s) (events s ++ [e]).

(** *** The state monad of the member functions *)

Definition M (A : Type) : Type := Impl -> A * Impl.

Definition ret {A} (a : A) : M A := fun s => (a, s).

Definition bind {A B} (m : M A) (k : A -> M B) : M B :=
  fun s => let (a, s') := m s in k a s'.

Notation "x <- m ;; k" := (bind m (fun x => k))
  (at level 61, m at next level, right associativity).
Notation "m ;;; k" := (bind m (fun _ => k))
  (at level 61, right associativity).

Definition socket_Connect : M (bool * string) := fun s =>
  let (r, w) := Connect (socket_client_ s) in
  (r, record (EvConnect r) (with_socket w s)).

Definition socket_Connected : M bool := fun s =>
  (Connected (socket_client_ s), s).

Definition socket_GetNativeSocketFd : M Z := fun s =>
  (GetNativeSocketFd (socket_client_ s), s).

Definition socket_Send (buf : list byte) (len : Z) : M IOResult := fun s =>
  let (r, w) := Send buf len (socket_client_ s) in
  (r, record (EvSend buf len r) (with_socket w s)).

Definition socket_Recv (len : Z) : M (IOResult * list byte) := fun s =>
  let (r, w) := Recv len (socket_client_ s) in
  (r, record (EvRecv len (fst r) (snd r)) (with_socket w s)).

Definition socket_Reset : M unit := fun s =>
  (tt, record EvReset (with_socket (Reset (socket_client_ s)) s)).

Definition sys_poll (fd events timeout : Z) : M (Z * Z * Z) := fun s =>
  let (r, w) := poll fd events timeout (socket_client_ s) in
  (r, record (EvPoll fd events timeout r) (with_socket w s)).

Definition cout (msg : string) : M unit := fun s =>
  (tt, record (EvCout msg) s).

Definition sleep_for (ms : Z) : M unit := fun s =>
  (tt, record (EvSleep ms) s).

(** Calling [callback_]: an empty [std::function] throws
    [std::bad_function_call]. *)
Definition call_callback (m : CtrlMessage) : M (option Exception) :=
  fun s =>
    match callback_ s with
    | None => (Some bad_function_call, s)
    | Some f =>
        let (c, w) := f m (socket_client_ s) in
        (match c with Normal => None | Raised => Some handler_exception end,
         record (EvCallback m c) (with_socket w s))
    end.

(** *** Construction, registration, destruction *)

(** [Impl(unique_ptr<IStreamSocketClient>)]: the thread is started at the
    head of its loop. *)
Definition construct (socket_client : W) : Impl :=
  mkImpl None socket_client AtSupervisor true [].

Definition RegisterCallback (callback : CameraCallback W) : M bool :=
  fun s =>
    (true,
     mkImpl (Some callback) (socket_client_ s) (vhal_talker_thread_ s)
       (should_continue_ s) (events s)).

(** The first statement of [~Impl()]; the second, [join()], returns once
    the thread is [joinable_done]. *)
Definition request_stop (s : Impl) : Impl :=
  mkImpl (callback_ s) (socket_client_ s) (vhal_talker_thread_ s) false
    (events s).

Definition joinable_done (s : Impl) : bool :=
  match vhal_talker_thread_ s with
  | Returned => true
  | _ => false
  end.

(** *** The framer *)

(** The [sizeof(size)] bytes at [&size]: the object representation of
    the [size_t] argument. *)
Definition size_header (size : Z) : list byte :=
  Repr.to_bytes big_endian size_t_bytes size.

Definition SendDataPacket (packet : list byte) (size : Z) : M IOResult :=
  (* Write payload size *)
  response <- socket_Send (size_header size) (Z.of_nat size_t_bytes) ;;
  if fst response =? -1 then
    let response :=
      (fst response,
       ("Error in writing payload size to Camera VHal: "
        ++ snd response)%string) in
    socket_Reset ;;;
    ret response
  else
    (* Write payload *)
    response <- socket_Send packet size ;;
    if fst response =? -1 then
      let response :=
        (fst response,
         ("Error in writing payload to Camera VHal: "
          ++ snd response)%string) in
      socket_Reset ;;;
      ret response
    else
      (* success *)
      ret response.

Definition SendRawPacket (packet : list byte) (size : Z) : M IOResult :=
  (* Write payload *)
  response <- socket_Send packet size ;;
  if fst response =? -1 then
    let response :=
      (fst response,
       ("Error in writing payload to Camera VHal: "
        ++ snd response)%string) in
    socket_Reset ;;;
    ret response
  else
    (* success *)
    ret response.

Definition Impl_Connected : M bool := socket_Connected.

Definition Impl_NeedConnectionReset : M bool := fun s =>
  (NeedConnectionReset (socket_client_ s), s).

Definition Impl_ClearReset : M unit := fun s =>
  (tt, record EvClearReset (with_socket (ClearReset (socket_client_ s)) s)).

(** *** The thread of the constructor *)

Definition nl : string := String (Ascii.ascii_of_nat 10) EmptyString.

Definition timeout_ms : Z := 1 * 1000.

(** [VideoSink::CtrlMessage ctrl_msg;] *)
Definition default_CtrlMessage : CtrlMessage :=
  {| version := VHalVersion_value kV2;
     cmd := Command_value kNone;
     video_params :=
       {| codec_type := VideoCodecType_value kH264;
          resolution := FrameResolution_value k480p;
          reserved := indeterminate |} |}.

(** The conversion of an [ssize_t] to [size_t], as the comparison
    [received != sizeof(VideoSink::CtrlMessage)] makes it. *)
Definition to_size_t (z : Z) : Z := z mod 2 ^ (8 * Z.of_nat size_t_bytes).

Definition get_should_continue : M bool := fun s => (should_continue_ s, s).

(** From [// connected ...] to the [do]: the descriptor is taken once. *)
Definition enter_reader : M ThreadState :=
  cout (" Connected to Camera VHal!" ++ nl) ;;;
  fd <- socket_GetNativeSocketFd ;;
  ret (AtPoll fd).

(** One pass from [while (should_continue_)] to the next loop head. *)
Definition supervisor_iteration : M ThreadState :=
  go <- get_should_continue ;;
  if negb go then ret Returned
  else
    c <- socket_Connected ;;
    if negb c then
      r <- socket_Connect ;;
      if negb (fst r) then
        cout ("Failed to connect to VHal: " ++ snd r
              ++ ". Retry after 3ms..." ++ nl) ;;;
        sleep_for 33 ;;;
        ret AtSupervisor (* continue *)
      else enter_reader
    else enter_reader.

(** One pass of the body of [do { ... } while (true)]. *)
Definition reader_iteration (fd : Z) : M ThreadState :=
  r <- sys_poll fd POLLIN timeout_ms ;;
  let '(ret_, revents, errno) := r in
  if ret_ =? -1 then ret (Terminated (system_error errno)) (* throw *)
  else if ret_ =? 0 then ret (AtPoll fd) (* continue *)
  else if negb (Z.land revents POLLIN =? 0) then
    cout ("Camera VHal has some message for us!" ++ nl) ;;;
    rr <- socket_Recv (Z.of_nat sizeof_CtrlMessage) ;;
    let '((received, recv_err_msg), data) := rr in
    let ctrl_msg :=
      store data (bytes_of_CtrlMessage big_endian default_CtrlMessage) in
    if negb (to_size_t received =? Z.of_nat sizeof_CtrlMessage) then
      cout ("Failed to read message from VideoSink: " ++ recv_err_msg
            ++ ", reset the connection." ++ nl) ;;;
      socket_Reset ;;;
      ret AtSupervisor (* break *)
    else
      (* success, invoke client callback *)
      e <- call_callback (CtrlMessage_of_bytes big_endian ctrl_msg) ;;
      match e with
      | Some x => ret (Terminated x)
      | None => ret (AtPoll fd)
      end
  else ret (AtPoll fd).

(** The thread advances by one loop iteration; once it has returned or
    terminated it does not move. *)
Definition thread_step (s : Impl) : Impl :=
  match vhal_talker_thread_ s with
  | AtSupervisor =>
      let (t, s') := supervisor_iteration s in with_thread t s'
  | AtPoll fd =>
      let (t, s') := reader_iteration fd s in with_thread t s'
  | Returned => s
  | Terminated _ => s
  end.

Fixpoint run (n : nat) (s : Impl) : Impl :=
  match n with
  | O => s
  | S n' => run n' (thread_step s)
  end.

(** The events of [s'] that [s] did not have yet. *)
Definition events_since (s s' : Impl) : list Event :=
  skipn (length (events s)) (events s').

(** *** Vocabulary of the statements *)

(** A transport that is not connected, whose [Connect] fails [k] times and
    then succeeds. *)
Fixpoint fails_then_succeeds (k : nat) (w : W) : Prop :=
  Connected w = false
  /\ match k with
     | O => fst (fst (Connect w)) = true
     | S k' =>
         fst (fst (Connect w)) = false
         /\ fails_then_succeeds k' (snd (Connect w))
     end.

(** The outside after [k] calls of [Connect]. *)
Fixpoint after_connects (k : nat) (w : W) : W :=
  match k with
  | O => w
  | S k' => after_connects k' (snd (Connect w))
  end.

(** [k] failed attempts, each with its diagnostic and its sleep, and then
    the attempt that succeeds. *)
Fixpoint retry_events (k : nat) (w : W) : list Event :=
  let r := fst (Connect w) in
  match k with
  | O => [EvConnect r; EvCout (" Connected to Camera VHal!" ++ nl)]
  | S k' =>
      EvConnect r
      :: EvCout ("Failed to connect to VHal: " ++ snd r
                 ++ ". Retry after 3ms..." ++ nl)
      :: EvSleep 33
      :: retry_events k' (snd (Connect w))
  end.

(** [poll] on [fd] reports a timeout in every outside state that [Q]
    holds of, and [Q] holds again afterwards: nothing ever arrives. *)
Definition always_times_out (fd : Z) (Q : W -> Prop) : Prop :=
  forall w, Q w ->
    fst (fst (fst (poll fd POLLIN timeout_ms w))) = 0
    /\ Q (snd (poll fd POLLIN timeout_ms w)).

(** The range of [ssize_t]. *)
Definition ssize_t_range (z : Z) : Prop :=
  - 2 ^ (8 * Z.of_nat size_t_bytes - 1) <= z
    < 2 ^ (8 * Z.of_nat size_t_bytes - 1).

(** The range of [size_t]. *)
Definition size_t_range (z : Z) : Prop :=
  0 <= z < 2 ^ (8 * Z.of_nat size_t_bytes).

(** The two calls that the documentation of [SendDataPacket] in
    video_sink.h gives as its equivalent: [SendRawPacket] on the bytes of
    [size], then [SendRawPacket] on the packet; the first result is
    dropped. *)
Definition two_raw_packets (packet : list byte) (size : Z) : M IOResult :=
  SendRawPacket (size_header size) (Z.of_nat size_t_bytes) ;;;
  SendRawPacket packet size.

(** The transport is not connected and refuses to connect in every outside
    state that [Q] holds of, and [Q] holds again after the attempt. *)
Definition always_refuses (Q : W -> Prop) : Prop :=
  forall w, Q w ->
    Connected w = false
    /\ fst (fst (Connect w)) = false
    /\ Q (snd (Connect w)).

(** The calls the framer can make. *)
Definition is_Send_or_Reset (e : Event) : bool := is_Send e || is_Reset e.


End Impl.
End Sink.

(** ** A scripted transport

    An implementation of the two interfaces that answers from scripts, the
    way a test harness does: each call takes the next scripted answer; with
    its script used up, [Connect] succeeds, [Send] reports the whole length
    with an empty message, [Recv] reports end of stream and [poll] times
    out. *)

Module Scripted.

Record World := mkWorld {
  connected : bool;
  need_reset : bool;
  native_fd : Z;
  connect_script : list (bool * string);
  send_script : list IOResult;
  recv_script : list (IOResult * list byte);
  poll_script : list (Z * Z * Z);
  sent : list (list byte)
}.

Definition do_Connect (w : World) : (bool * string) * World :=
  let r := hd (true, EmptyString) (connect_script w) in
  (r, mkWorld (fst r) (need_reset w) (native_fd w) (tl (connect_script w))
        (send_script w) (recv_script w) (poll_script w) (sent w)).

Definition do_Send (buf : list byte) (len : Z) (w : World)
  : IOResult * World :=
  let r := hd (len, EmptyString) (send_script w) in
  (r, mkWorld (connected w) (need_reset w) (native_fd w) (connect_script w)
        (tl (send_script w)) (recv_script w) (poll_script w)
        (if fst r =? -1 then sent w
         else sent w ++ [firstn (Z.to_nat (fst r)) buf])).

Definition do_Recv (len : Z) (w : World)
  : (IOResult * list byte) * World :=
  let r := hd ((0, EmptyString), []) (recv_script w) in
  (r, mkWorld (connected w) (need_reset w) (native_fd w) (connect_script w)
        (send_script w) (tl (recv_script w)) (poll_script w) (sent w)).

Definition do_Reset (w : World) : World :=
  mkWorld false true (native_fd w) (connect_script w) (send_script w)
    (recv_script w) (poll_script w) (sent w).

Definition do_ClearReset (w : World) : World :=
  mkWorld (connected w) false (native_fd w) (connect_script w)
    (send_script w) (recv_script w) (poll_script w) (sent w).

Definition do_poll (fd events timeout : Z) (w : World)
  : (Z * Z * Z) * World :=
  (hd (0, 0, 0) (poll_script w),
   mkWorld (connected w) (need_reset w) (native_fd w) (connect_script w)
     (send_script w) (recv_script w) (tl (poll_script w)) (sent w)).

#[global] Instance socket : IStreamSocketClient World := {|
  Connect := do_Connect;
  Connected := connected;
  Send := do_Send;
  Recv := do_Recv;
  Reset := do_Reset;
  NeedConnectionReset := need_reset;
  ClearReset := do_ClearReset;
  GetNativeSocketFd := native_fd
|}.

#[global] Instance syscall : PollSyscall World := {|
  poll := do_poll
|}.

(** A transport that is not connected yet, on descriptor 7. *)
Definition fresh (cs : list (bool * string)) (ss : list IOResult)
    (rs : list (IOResult * list byte)) (ps : list (Z * Z * Z)) : World :=
  mkWorld false false 7 cs ss rs ps [].

(** A handler that returns, and leaves the outside alone. *)
Definition quiet_handler : CameraCallback World :=
  fun _ w => (Normal, w).

(** An LP64 little-endian platform. *)
Definition lp64_size_t_bytes : nat := 8.
Definition little_endian : bool := false.

End Scripted.

(** ** Concrete runs on the scripted transport *)

Module Scenario.
Import Scripted.

Definition garbage : list Z := [3735928559; 0; 4294967295; 17].

Definition payload : list byte := [x01; x02; x03].

(** A sink on the LP64 platform whose thread has made its first pass and
    connected the transport; the scripts say what the transport answers
    from then on. *)
Definition connected_sink (ss : list IOResult)
    (rs : list (IOResult * list byte)) (ps : list (Z * Z * Z))
  : @Sink.Impl World :=
  Sink.run lp64_size_t_bytes little_endian garbage 1
    (Sink.construct (fresh [] ss rs ps)).

(** The control record of the specification's example: decode in the VHAL,
    open, H264, 720p. *)
Definition open_720p : CtrlMessage :=
  {| version := VHalVersion_value kV2;
     cmd := Command_value kOpen;
     video_params :=
       {| codec_type := VideoCodecType_value kH264;
          resolution := FrameResolution_value k720p;
          reserved := [0; 0; 0; 0] |} |}.

Definition open_720p_bytes : list byte :=
  bytes_of_CtrlMessage little_endian open_720p.

(** The descriptor is reported readable: one descriptor, [POLLIN]. *)
Definition readable : Z * Z * Z := (1, POLLIN, 0).

(** Nothing is left to arrive on the descriptor. *)
Definition idle (w : World) : Prop := poll_script w = [].

End Scenario.

(** ** A device that is not there *)

Module Unplugged.

(** The state counts the connection attempts; every attempt is refused and
    every other call fails. *)
Record World := mkWorld { attempts : nat }.

Definition refused : string := "No such file or directory".

#[global] Instance socket : IStreamSocketClient World := {|
  Connect := fun w => ((false, refused), mkWorld (S (attempts w)));
  Connected := fun _ => false;
  Send := fun _ _ w => ((-1, refused), w);
  Recv := fun _ w => (((-1, refused), []), w);
  Reset := fun w => w;
  NeedConnectionReset := fun _ => false;
  ClearReset := fun w => w;
  GetNativeSocketFd := fun _ => -1
|}.

#[global] Instance syscall : PollSyscall World := {|
  poll := fun _ _ _ w => ((-1, 0, 9), w)
|}.

Definition any (w : World) : Prop := True.

End Unplugged.

Module Scenario2.
Import Scripted.

(** A handler that throws. *)
Definition throwing_handler : CameraCallback World :=
  fun _ w => (Raised, w).

(** [POLLHUP] of <sys/poll.h>: the peer hung up. *)
Definition POLLHUP : Z := 16.

(** A transport that is connected before the sink is made. *)
Definition already_connected : World :=
  mkWorld true false 7 [] [] [] [] [].

End Scenario2.

(** * Facts about the object representation *)

Module ReprFacts.
Import Repr.

Lemma Z_of_byte_range (b : byte) : 0 <= Z_of_byte b < 256.
Proof.
  unfold Z_of_byte. pose proof (Byte.to_N_bounded b). lia.
Qed.

Lemma byte_of_Z_of_byte (b : byte) : byte_of_Z (Z_of_byte b) = b.
Proof.
  unfold byte_of_Z. pose proof (Z_of_byte_range b) as R.
  rewrite Z.mod_small by exact R.
  unfold Z_of_byte. rewrite N2Z.id, Byte.of_to_N. reflexivity.
Qed.

Lemma Z_of_byte_of_Z (z : Z) : Z_of_byte (byte_of_Z z) = z mod 256.
Proof.
  unfold byte_of_Z, Z_of_byte.
  pose proof (Z.mod_pos_bound z 256 ltac:(lia)) as R.
  destruct (Byte.of_N (Z.to_N (z mod 256))) as [b|] eqn:E.
  - apply Byte.to_of_N in E. rewrite E. lia.
  - apply Byte.of_N_None_iff in E. lia.
Qed.

Lemma le_bytes_length (w : nat) (z : Z) : length (le_bytes w z) = w.
Proof.
  revert z. induction w as [|w IH]; intros z; simpl; [reflexivity|].
  now rewrite IH.
Qed.

Lemma to_bytes_length (be : bool) (w : nat) (z : Z) :
  length (to_bytes be w z) = w.
Proof.
  unfold to_bytes, native_order. destruct be.
  - now rewrite length_rev, le_bytes_length.
  - apply le_bytes_length.
Qed.

Lemma native_order_involutive (be : bool) (bs : list byte) :
  native_order be (native_order be bs) = bs.
Proof. destruct be; simpl; [apply rev_involutive | reflexivity]. Qed.

Lemma le_value_le_bytes (w : nat) (z : Z) :
  le_value (le_bytes w z) = z mod 2 ^ (8 * Z.of_nat w).
Proof.
  revert z. induction w as [|w IH]; intros z.
  - simpl. now rewrite Z.mod_1_r.
  - cbn [le_bytes le_value]. rewrite IH, Z_of_byte_of_Z.
    replace (8 * Z.of_nat (S w)) with (8 + 8 * Z.of_nat w) by lia.
    rewrite Z.pow_add_r by lia. change (2 ^ 8) with 256.
    rewrite (Z.rem_mul_r z 256 (2 ^ (8 * Z.of_nat w))); lia.
Qed.

Lemma le_bytes_le_value (bs : list byte) :
  le_bytes (length bs) (le_value bs) = bs.
Proof.
  induction bs as [|b bs IH]; [reflexivity|].
  cbn [length le_bytes le_value].
  pose proof (Z_of_byte_range b) as R. f_equal.
  - unfold byte_of_Z.
    replace ((Z_of_byte b + 256 * le_value bs) mod 256) with (Z_of_byte b).
    + unfold Z_of_byte. now rewrite N2Z.id, Byte.of_to_N.
    + apply Z.mod_unique with (q := le_value bs); lia.
  - replace ((Z_of_byte b + 256 * le_value bs) / 256) with (le_value bs).
    + exact IH.
    + apply Z.div_unique with (r := Z_of_byte b); lia.
Qed.

Lemma le_value_range (bs : list byte) :
  0 <= le_value bs < 2 ^ (8 * Z.of_nat (length bs)).
Proof.
  rewrite <- (le_bytes_le_value bs) at 1 2.
  rewrite le_value_le_bytes. apply Z.mod_pos_bound. lia.
Qed.

(** Reading back the bytes of a value gives the value, wrapped. *)
Lemma unsigned_of_to_bytes (be : bool) (w : nat) (z : Z) :
  unsigned_of_bytes be (to_bytes be w z) = z mod 2 ^ (8 * Z.of_nat w).
Proof.
  unfold unsigned_of_bytes, to_bytes.
  now rewrite native_order_involutive, le_value_le_bytes.
Qed.

Lemma native_order_length (be : bool) (bs : list byte) :
  length (native_order be bs) = length bs.
Proof. destruct be; simpl; [apply length_rev | reflexivity]. Qed.

(** Writing back the value read from some bytes gives the same bytes. *)
Lemma to_bytes_unsigned_of_bytes (be : bool) (bs : list byte) :
  to_bytes be (length bs) (unsigned_of_bytes be bs) = bs.
Proof.
  unfold unsigned_of_bytes, to_bytes.
  rewrite <- (native_order_length be bs), le_bytes_le_value.
  apply native_order_involutive.
Qed.

Lemma le_bytes_mod (w : nat) (z : Z) :
  le_bytes w (z mod 2 ^ (8 * Z.of_nat w)) = le_bytes w z.
Proof.
  rewrite <- (le_value_le_bytes w z).
  rewrite <- (le_bytes_length w z) at 1. apply le_bytes_le_value.
Qed.

Lemma to_bytes_signed_of_bytes (be : bool) (bs : list byte) :
  to_bytes be (length bs) (signed_of_bytes be bs) = bs.
Proof.
  unfold signed_of_bytes, to_signed.
  destruct (_ <? _).
  - apply to_bytes_unsigned_of_bytes.
  - unfold to_bytes. rewrite <- le_bytes_mod.
    replace (unsigned_of_bytes be bs - 2 ^ (8 * Z.of_nat (length bs)))
      with (unsigned_of_bytes be bs
            + (-1) * 2 ^ (8 * Z.of_nat (length bs))) by lia.
    rewrite Z.mod_add by (apply Z.pow_nonzero; lia).
    rewrite le_bytes_mod. apply to_bytes_unsigned_of_bytes.
Qed.

Lemma signed_of_to_bytes (be : bool) (w : nat) (z : Z) :
  (0 < w)%nat ->
  - 2 ^ (8 * Z.of_nat w - 1) <= z < 2 ^ (8 * Z.of_nat w - 1) ->
  signed_of_bytes be (to_bytes be w z) = z.
Proof.
  intros Hw Hz. unfold signed_of_bytes.
  rewrite to_bytes_length, unsigned_of_to_bytes. unfold to_signed.
  assert (E : 2 ^ (8 * Z.of_nat w) = 2 * 2 ^ (8 * Z.of_nat w - 1)).
  { rewrite <- Z.pow_succ_r by lia. f_equal. lia. }
  set (h := 2 ^ (8 * Z.of_nat w - 1)) in *.
  rewrite E. destruct (Z.ltb_spec z 0) as [Hn|Hp].
  - replace (z mod (2 * h)) with (z + 2 * h).
    + destruct (Z.ltb_spec (z + 2 * h) h); lia.
    + apply Z.mod_unique with (q := -1); lia.
  - rewrite Z.mod_small by lia.
    destruct (Z.ltb_spec z h); lia.
Qed.

End ReprFacts.

Section ObjectRepresentationFacts.

Variable big_endian : bool.

Lemma bytes_of_CtrlMessage_length (m : CtrlMessage) :
  length (bytes_of_CtrlMessage big_endian m) = sizeof_CtrlMessage.
Proof.
  unfold bytes_of_CtrlMessage, bytes_of_VideoParams. cbn [seq flat_map].
  repeat rewrite length_app. repeat rewrite ReprFacts.to_bytes_length.
  reflexivity.
Qed.

Lemma store_full (data buf : list byte) :
  length data = length buf -> store data buf = data.
Proof.
  intros E. unfold store. rewrite <- E.
  rewrite skipn_all2 by lia. rewrite app_nil_r. apply firstn_all.
Qed.

Lemma store_length (data buf : list byte) :
  length (store data buf) = length buf.
Proof.
  unfold store. rewrite length_firstn, length_app, length_skipn. lia.
Qed.

Lemma word_of_slice (a b c d : byte) :
  Repr.to_bytes big_endian 4
    (Repr.signed_of_bytes big_endian [a; b; c; d]) = [a; b; c; d]
  /\ Repr.to_bytes big_endian 4
       (Repr.unsigned_of_bytes big_endian [a; b; c; d]) = [a; b; c; d].
Proof.
  split.
  - exact (ReprFacts.to_bytes_signed_of_bytes big_endian [a; b; c; d]).
  - exact (ReprFacts.to_bytes_unsigned_of_bytes big_endian [a; b; c; d]).
Qed.

(** The members read from 32 bytes have exactly those bytes as their
    object representation. *)
Lemma bytes_of_CtrlMessage_of_bytes (bs : list byte) :
  length bs = sizeof_CtrlMessage ->
  bytes_of_CtrlMessage big_endian (CtrlMessage_of_bytes big_endian bs) = bs.
Proof.
  intros L.
  do 32 (destruct bs as [|? bs]; [discriminate L|]).
  destruct bs; [|discriminate L]. clear L.
  unfold bytes_of_CtrlMessage, bytes_of_VideoParams, CtrlMessage_of_bytes,
    slice, sizeof_int, sizeof_uint32_t.
  cbn [version cmd video_params codec_type resolution reserved
       seq map flat_map nth firstn skipn Nat.add Nat.mul app].
  repeat match goal with
  | |- context [Repr.to_bytes _ 4 (Repr.signed_of_bytes _ [?a; ?b; ?c; ?d])] =>
      rewrite (proj1 (word_of_slice a b c d))
  | |- context [Repr.to_bytes _ 4 (Repr.unsigned_of_bytes _ [?a; ?b; ?c; ?d])] =>
      rewrite (proj2 (word_of_slice a b c d))
  end.
  reflexivity.
Qed.

Lemma slice_app_here (n : nat) (xs ys : list byte) :
  length xs = n -> slice 0 n (xs ++ ys) = xs.
Proof.
  intros E. unfold slice. cbn [skipn]. subst n.
  rewrite firstn_app, Nat.sub_diag, firstn_all. cbn. apply app_nil_r.
Qed.

Lemma slice_app_skip (off n k : nat) (xs ys : list byte) :
  length xs = k -> slice (k + off) n (xs ++ ys) = slice off n ys.
Proof.
  intros E. unfold slice. subst k.
  rewrite skipn_app. rewrite skipn_all2 by lia.
  replace (length xs + off - length xs)%nat with off by lia.
  reflexivity.
Qed.

(** Reading the members of a stored record gives its enumeration members
    back (the reserved words are read as [uint32_t]). *)
Lemma CtrlMessage_of_bytes_of (m : CtrlMessage) :
  int_range (version m) -> int_range (cmd m) ->
  int_range (codec_type (video_params m)) ->
  int_range (resolution (video_params m)) ->
  let m' := CtrlMessage_of_bytes big_endian (bytes_of_CtrlMessage big_endian m) in
  version m' = version m /\ cmd m' = cmd m
  /\ codec_type (video_params m') = codec_type (video_params m)
  /\ resolution (video_params m') = resolution (video_params m).
Proof.
  intros Hv Hc Hk Hr.
  unfold bytes_of_CtrlMessage, bytes_of_VideoParams, CtrlMessage_of_bytes.
  cbn [version cmd video_params codec_type resolution].
  pose proof (ReprFacts.to_bytes_length big_endian sizeof_int) as L.
  repeat split.
  - rewrite slice_app_here by apply L.
    apply ReprFacts.signed_of_to_bytes; [unfold sizeof_int; lia | exact Hv].
  - rewrite (slice_app_skip 0 _ 4) by apply L.
    rewrite slice_app_here by apply L.
    apply ReprFacts.signed_of_to_bytes; [unfold sizeof_int; lia | exact Hc].
  - rewrite (slice_app_skip 4 _ 4) by apply L.
    rewrite (slice_app_skip 0 _ 4) by apply L.
    rewrite slice_app_here by apply L.
    apply ReprFacts.signed_of_to_bytes; [unfold sizeof_int; lia | exact Hk].
  - rewrite (slice_app_skip 8 _ 4) by apply L.
    rewrite (slice_app_skip 4 _ 4) by apply L.
    rewrite (slice_app_skip 0 _ 4) by apply L.
    rewrite slice_app_here by apply L.
    apply ReprFacts.signed_of_to_bytes; [unfold sizeof_int; lia | exact Hr].
Qed.

End ObjectRepresentationFacts.

(** * The sink against its specification *)

Module SinkSpec.
Import Sink.

Lemma skipn_length_app {A} (l d : list A) : skipn (length l) (l ++ d) = d.
Proof.
  rewrite skipn_app, skipn_all, Nat.sub_diag. reflexivity.
Qed.

Section Claims.

Context {W : Type} `{IStreamSocketClient W} `{PollSyscall W}.
Variable size_t_bytes : nat.
Variable big_endian : bool.
Variable indeterminate : list Z.

Local Abbreviation Impl := (@Sink.Impl W).
Local Abbreviation SendDataPacket := (Sink.SendDataPacket size_t_bytes big_endian).
Local Abbreviation size_header := (Sink.size_header size_t_bytes big_endian).
Local Abbreviation thread_step :=
  (Sink.thread_step size_t_bytes big_endian indeterminate).
Local Abbreviation run := (Sink.run size_t_bytes big_endian indeterminate).

Lemma events_since_app (s s' : Impl) (d : list Event) :
  events s' = events s ++ d -> events_since s s' = d.
Proof.
  intros E. unfold events_since. rewrite E. apply skipn_length_app.
Qed.

(** The framer, case by case on what the transport answers. *)
Lemma SendDataPacket_cases (packet : list byte) (size : Z) (s : Impl) :
  let len := Z.of_nat size_t_bytes in
  let a1 := Send (size_header size) len (socket_client_ s) in
  let a2 := Send packet size (snd a1) in
  SendDataPacket packet size s =
    if fst (fst a1) =? -1 then
      ((fst (fst a1),
        ("Error in writing payload size to Camera VHal: "
         ++ snd (fst a1))%string),
       mkImpl (callback_ s) (Reset (snd a1)) (vhal_talker_thread_ s)
         (should_continue_ s)
         (events s ++ [EvSend (size_header size) len (fst a1); EvReset]))
    else if fst (fst a2) =? -1 then
      ((fst (fst a2),
        ("Error in writing payload to Camera VHal: "
         ++ snd (fst a2))%string),
       mkImpl (callback_ s) (Reset (snd a2)) (vhal_talker_thread_ s)
         (should_continue_ s)
         (events s ++ [EvSend (size_header size) len (fst a1);
                       EvSend packet size (fst a2); EvReset]))
    else
      (fst a2,
       mkImpl (callback_ s) (snd a2) (vhal_talker_thread_ s)
         (should_continue_ s)
         (events s ++ [EvSend (size_header size) len (fst a1);
                       EvSend packet size (fst a2)])).
Proof.
  intros len a1 a2. subst a2 a1 len.
  unfold Sink.SendDataPacket, bind, socket_Send, socket_Reset, ret.
  destruct (Send _ _ (socket_client_ s)) as [r1 w1]. cbn [fst snd].
  destruct (fst r1 =? -1).
  - unfold record, with_socket; cbn. rewrite <- app_assoc. reflexivity.
  - cbn. destruct (Send packet size w1) as [r2 w2]. cbn [fst snd].
    destruct (fst r2 =? -1); unfold record, with_socket; cbn;
      rewrite <- !app_assoc; reflexivity.
Qed.

Lemma SendRawPacket_cases (packet : list byte) (size : Z) (s : Impl) :
  let a := Send packet size (socket_client_ s) in
  SendRawPacket packet size s =
    if fst (fst a) =? -1 then
      ((fst (fst a),
        ("Error in writing payload to Camera VHal: "
         ++ snd (fst a))%string),
       mkImpl (callback_ s) (Reset (snd a)) (vhal_talker_thread_ s)
         (should_continue_ s)
         (events s ++ [EvSend packet size (fst a); EvReset]))
    else
      (fst a,
       mkImpl (callback_ s) (snd a) (vhal_talker_thread_ s)
         (should_continue_ s) (events s ++ [EvSend packet size (fst a)])).
Proof.
  intros a. subst a.
  unfold SendRawPacket, bind, socket_Send, socket_Reset, ret.
  destruct (Send _ _ (socket_client_ s)) as [r w]. cbn [fst snd].
  destruct (fst r =? -1); unfold record, with_socket; cbn;
    rewrite <- ?app_assoc; reflexivity.
Qed.

(** C1 (amended): [SendDataPacket] first writes the length header, which is
    [sizeof(size)] bytes holding [size] in the platform's width and byte
    order; when that write does not return -1 it next writes the payload
    [(packet, size)], and these two are all the writes of the call; when the
    header write returns -1, the header write is the only one. *)
Theorem C1_data_packet_writes (packet : list byte) (size : Z) (s : Impl) :
  let hdr := size_header size in
  let a1 := Send hdr (Z.of_nat size_t_bytes) (socket_client_ s) in
  let a2 := Send packet size (snd a1) in
  let s' := snd (SendDataPacket packet size s) in
  length hdr = size_t_bytes
  /\ Repr.unsigned_of_bytes big_endian hdr
     = size mod 2 ^ (8 * Z.of_nat size_t_bytes)
  /\ filter is_Send (events_since s s')
     = EvSend hdr (Z.of_nat size_t_bytes) (fst a1)
       :: (if fst (fst a1) =? -1 then []
           else [EvSend packet size (fst a2)]).
Proof.
  intros hdr a1 a2 s'. split; [|split].
  - apply ReprFacts.to_bytes_length.
  - apply ReprFacts.unsigned_of_to_bytes.
  - subst s'. rewrite SendDataPacket_cases. fold hdr. fold a1. fold a2.
    destruct (fst (fst a1) =? -1); [|destruct (fst (fst a2) =? -1)];
      cbn [snd]; erewrite events_since_app by (cbn [events]; reflexivity);
      reflexivity.
Qed.

(** C6: when the header write returns -1, [SendDataPacket] makes no second
    write, calls [Reset], and returns -1 with the transport's message behind
    the prefix that names the cause; the message is not empty. *)
Theorem C6_header_write_fails
    (packet : list byte) (size : Z) (s : Impl) (msg : string) (w1 : W)
    (Hsend : Send (size_header size) (Z.of_nat size_t_bytes)
               (socket_client_ s) = ((-1, msg), w1)) :
  let res := fst (SendDataPacket packet size s) in
  let s' := snd (SendDataPacket packet size s) in
  res = (-1, ("Error in writing payload size to Camera VHal: " ++ msg)%string)
  /\ snd res <> EmptyString
  /\ events_since s s'
     = [EvSend (size_header size) (Z.of_nat size_t_bytes) (-1, msg); EvReset]
  /\ socket_client_ s' = Reset w1.
Proof.
  intros res s'. subst res s'. rewrite SendDataPacket_cases, Hsend.
  cbn [fst snd]. rewrite Z.eqb_refl. cbn [fst snd].
  repeat split.
  - discriminate.
  - apply events_since_app. reflexivity.
Qed.

(** C7: when the header write succeeds and the payload write returns -1,
    [SendDataPacket] returns the payload write's result, -1 with a decorated
    message; the header write stays made, and the only call after the failed
    write is [Reset]. *)
Theorem C7_payload_write_fails
    (packet : list byte) (size : Z) (s : Impl)
    (r1 : IOResult) (msg : string) (w1 w2 : W)
    (Hhdr : Send (size_header size) (Z.of_nat size_t_bytes)
              (socket_client_ s) = (r1, w1))
    (Hok : fst r1 <> -1)
    (Hpay : Send packet size w1 = ((-1, msg), w2)) :
  let res := fst (SendDataPacket packet size s) in
  let s' := snd (SendDataPacket packet size s) in
  res = (-1, ("Error in writing payload to Camera VHal: " ++ msg)%string)
  /\ snd res <> EmptyString
  /\ events_since s s'
     = [EvSend (size_header size) (Z.of_nat size_t_bytes) r1;
        EvSend packet size (-1, msg); EvReset]
  /\ socket_client_ s' = Reset w2.
Proof.
  intros res s'. subst res s'. rewrite SendDataPacket_cases, Hhdr.
  cbn [fst snd]. rewrite Hpay. cbn [fst snd].
  apply Z.eqb_neq in Hok. rewrite Hok, Z.eqb_refl. cbn [fst snd].
  repeat split.
  - discriminate.
  - apply events_since_app. reflexivity.
Qed.

(** C9 (amended): when no transport write returns -1, [SendDataPacket] and
    [SendRawPacket] return the result of the transport's payload write as it
    is: its byte count, and its status message, which is empty exactly when
    the transport's is.  [SendDataPacket] makes its two writes once each and
    [SendRawPacket] its one: nothing is retried. *)
Theorem C9_success_passes_transport_result
    (packet : list byte) (size : Z) (s : Impl)
    (r1 r2 r : IOResult) (w1 w2 w : W)
    (Hhdr : Send (size_header size) (Z.of_nat size_t_bytes)
              (socket_client_ s) = (r1, w1))
    (Hok1 : fst r1 <> -1)
    (Hpay : Send packet size w1 = (r2, w2))
    (Hok2 : fst r2 <> -1)
    (Hraw : Send packet size (socket_client_ s) = (r, w))
    (Hok : fst r <> -1) :
  (fst (SendDataPacket packet size s) = r2
   /\ events_since s (snd (SendDataPacket packet size s))
      = [EvSend (size_header size) (Z.of_nat size_t_bytes) r1;
         EvSend packet size r2])
  /\ (fst (SendRawPacket packet size s) = r
      /\ events_since s (snd (SendRawPacket packet size s))
         = [EvSend packet size r]).
Proof.
  apply Z.eqb_neq in Hok1, Hok2, Hok. split.
  - rewrite SendDataPacket_cases, Hhdr. cbn [fst snd].
    rewrite Hpay, Hok1. cbn [fst snd]. rewrite Hok2. cbn [fst snd].
    split; [reflexivity | apply events_since_app; reflexivity].
  - rewrite SendRawPacket_cases, Hraw. cbn [fst snd]. rewrite Hok.
    cbn [fst snd].
    split; [reflexivity | apply events_since_app; reflexivity].
Qed.

Local Abbreviation to_size_t := (Sink.to_size_t size_t_bytes).
Local Abbreviation ssize_t_range := (Sink.ssize_t_range size_t_bytes).

Lemma half_range_big : (0 < size_t_bytes)%nat ->
  128 <= 2 ^ (8 * Z.of_nat size_t_bytes - 1)
  /\ 2 ^ (8 * Z.of_nat size_t_bytes)
     = 2 * 2 ^ (8 * Z.of_nat size_t_bytes - 1).
Proof.
  intros Hw. split.
  - change 128 with (2 ^ 7). apply Z.pow_le_mono_r; lia.
  - rewrite <- Z.pow_succ_r by lia. f_equal. lia.
Qed.

(** On values of [ssize_t], the comparison after conversion to [size_t] is
    the comparison of the values. *)
Lemma to_size_t_eqb_sizeof (z : Z) :
  (0 < size_t_bytes)%nat -> ssize_t_range z ->
  (to_size_t z =? Z.of_nat sizeof_CtrlMessage)
  = (z =? Z.of_nat sizeof_CtrlMessage).
Proof.
  intros Hw [Hlo Hhi]. destruct (half_range_big Hw) as [Hbig E].
  unfold Sink.to_size_t. rewrite E.
  set (h := 2 ^ (8 * Z.of_nat size_t_bytes - 1)) in *.
  change (Z.of_nat sizeof_CtrlMessage) with 32.
  destruct (Z.ltb_spec z 0) as [Hn|Hp].
  - replace (z mod (2 * h)) with (z + 2 * h)
      by (apply Z.mod_unique with (q := -1); lia).
    destruct (Z.eqb_spec (z + 2 * h) 32), (Z.eqb_spec z 32); lia.
  - rewrite Z.mod_small by lia. reflexivity.
Qed.

(** One pass of the reader when [poll] reports the descriptor readable:
    the read, and then either the reset or the dispatch. *)
Lemma thread_step_readable
    (s : Impl) (fd ret_ revents errno received : Z) (msg : string)
    (data : list byte) (w1 w2 : W) :
  vhal_talker_thread_ s = AtPoll fd ->
  poll fd POLLIN timeout_ms (socket_client_ s)
    = ((ret_, revents, errno), w1) ->
  ret_ <> -1 -> ret_ <> 0 -> Z.land revents POLLIN <> 0 ->
  Recv (Z.of_nat sizeof_CtrlMessage) w1 = (((received, msg), data), w2) ->
  let s2 :=
    mkImpl (callback_ s) w2 (AtPoll fd) (should_continue_ s)
      (events s
       ++ [EvPoll fd POLLIN timeout_ms (ret_, revents, errno);
           EvCout ("Camera VHal has some message for us!" ++ nl);
           EvRecv (Z.of_nat sizeof_CtrlMessage) (received, msg) data]) in
  let m :=
    CtrlMessage_of_bytes big_endian
      (store data
         (bytes_of_CtrlMessage big_endian
            (default_CtrlMessage indeterminate))) in
  thread_step s =
    if to_size_t received =? Z.of_nat sizeof_CtrlMessage then
      let (e, s3) := call_callback m s2 in
      with_thread
        (match e with Some x => Terminated x | None => AtPoll fd end) s3
    else
      mkImpl (callback_ s) (Reset w2) AtSupervisor (should_continue_ s)
        (events s2
         ++ [EvCout ("Failed to read message from VideoSink: " ++ msg
                     ++ ", reset the connection." ++ nl);
             EvReset]).
Proof.
  intros Hat Hpoll Hret Hret0 Hin Hrecv s2 m.
  apply Z.eqb_neq in Hret, Hret0, Hin.
  unfold Sink.thread_step. rewrite Hat.
  unfold reader_iteration, bind, sys_poll. rewrite Hpoll.
  rewrite Hret, Hret0.
  cbn [with_socket record socket_client_ callback_ vhal_talker_thread_
       should_continue_ events].
  rewrite Hin. cbn [negb].
  unfold cout, socket_Recv.
  cbn [with_socket record socket_client_ callback_ vhal_talker_thread_
       should_continue_ events].
  rewrite Hrecv. cbn [fst snd].
  cbn [with_socket record socket_client_ callback_ vhal_talker_thread_
       should_continue_ events].
  fold m.
  match goal with
  | |- (let (_, _) := _ ?st in _) = _ =>
      replace st with s2
        by (subst s2; unfold record, with_socket; cbn; rewrite Hat;
            rewrite <- !app_assoc; reflexivity)
  end.
  destruct (to_size_t received =? Z.of_nat sizeof_CtrlMessage); cbn [negb].
  - unfold ret.
    destruct (call_callback m s2) as [[x|] s3]; reflexivity.
  - unfold socket_Reset, ret, with_thread, record, with_socket; cbn.
    rewrite <- !app_assoc. reflexivity.
Qed.


(** One pass of the supervisor on a transport that is not connected. *)
Lemma thread_step_connect (s : Impl) :
  vhal_talker_thread_ s = AtSupervisor ->
  should_continue_ s = true ->
  Connected (socket_client_ s) = false ->
  let a := Connect (socket_client_ s) in
  thread_step s =
    if fst (fst a) then
      mkImpl (callback_ s) (snd a) (AtPoll (GetNativeSocketFd (snd a)))
        true (events s ++ retry_events 0 (socket_client_ s))
    else
      mkImpl (callback_ s) (snd a) AtSupervisor true
        (events s
         ++ [EvConnect (fst a);
             EvCout ("Failed to connect to VHal: " ++ snd (fst a)
                     ++ ". Retry after 3ms..." ++ nl);
             EvSleep 33]).
Proof.
  intros Hat Hgo Hnc a. subst a.
  unfold Sink.thread_step. rewrite Hat.
  unfold supervisor_iteration, bind, get_should_continue, socket_Connected,
    socket_Connect.
  rewrite Hgo. cbn [negb]. cbv beta iota. rewrite Hnc. cbn [negb].
  cbn [retry_events].
  destruct (Connect (socket_client_ s)) as [[ok msg] w1]. cbn [fst snd].
  destruct ok; cbn [negb].
  - unfold enter_reader, bind, cout, socket_GetNativeSocketFd, ret,
      with_thread, record, with_socket.
    cbn [callback_ socket_client_ vhal_talker_thread_ should_continue_
         events].
    rewrite Hgo, <- app_assoc. reflexivity.
  - unfold bind, cout, sleep_for, ret, with_thread, record, with_socket.
    cbn [callback_ socket_client_ vhal_talker_thread_ should_continue_
         events].
    rewrite Hgo, <- !app_assoc. reflexivity.
Qed.

(** C3: when [Recv] returns fewer bytes than [sizeof(CtrlMessage)] (zero
    and -1 too), the reader calls [Reset], does not call the handler, reads
    only once, and leaves the inner loop for the head of the supervisor's
    loop, whose next pass, with the sink still running and the transport
    reporting that it is not connected, starts by connecting. *)
Theorem C3_short_read_resets
    (s : Impl) (fd ret_ revents errno received : Z) (msg : string)
    (data : list byte) (w1 w2 : W)
    (Hw : (0 < size_t_bytes)%nat)
    (Hat : vhal_talker_thread_ s = AtPoll fd)
    (Hpoll : poll fd POLLIN timeout_ms (socket_client_ s)
             = ((ret_, revents, errno), w1))
    (Hret : ret_ <> -1) (Hret0 : ret_ <> 0)
    (Hin : Z.land revents POLLIN <> 0)
    (Hrecv : Recv (Z.of_nat sizeof_CtrlMessage) w1
             = (((received, msg), data), w2))
    (Hrange : ssize_t_range received)
    (Hshort : received < Z.of_nat sizeof_CtrlMessage) :
  let s' := thread_step s in
  events_since s s'
  = [EvPoll fd POLLIN timeout_ms (ret_, revents, errno);
     EvCout ("Camera VHal has some message for us!" ++ nl);
     EvRecv (Z.of_nat sizeof_CtrlMessage) (received, msg) data;
     EvCout ("Failed to read message from VideoSink: " ++ msg
             ++ ", reset the connection." ++ nl);
     EvReset]
  /\ filter is_Callback (events_since s s') = []
  /\ length (filter is_Recv (events_since s s')) = 1%nat
  /\ socket_client_ s' = Reset w2
  /\ vhal_talker_thread_ s' = AtSupervisor
  /\ (should_continue_ s = true -> Connected (Reset w2) = false ->
      hd_error (events_since s' (thread_step s'))
      = Some (EvConnect (fst (Connect (Reset w2))))).
Proof.
  intros s'.
  assert (Es : s'
    = mkImpl (callback_ s) (Reset w2) AtSupervisor (should_continue_ s)
        (events s
         ++ [EvPoll fd POLLIN timeout_ms (ret_, revents, errno);
             EvCout ("Camera VHal has some message for us!" ++ nl);
             EvRecv (Z.of_nat sizeof_CtrlMessage) (received, msg) data;
             EvCout ("Failed to read message from VideoSink: " ++ msg
                     ++ ", reset the connection." ++ nl);
             EvReset])).
  { subst s'.
    rewrite (thread_step_readable s fd ret_ revents errno received msg data
               w1 w2 Hat Hpoll Hret Hret0 Hin Hrecv).
    rewrite (to_size_t_eqb_sizeof received Hw Hrange).
    replace (received =? Z.of_nat sizeof_CtrlMessage) with false
      by (symmetry; apply Z.eqb_neq; lia).
    cbn [events]. rewrite <- app_assoc. reflexivity. }
  assert (E : events_since s s'
    = [EvPoll fd POLLIN timeout_ms (ret_, revents, errno);
       EvCout ("Camera VHal has some message for us!" ++ nl);
       EvRecv (Z.of_nat sizeof_CtrlMessage) (received, msg) data;
       EvCout ("Failed to read message from VideoSink: " ++ msg
               ++ ", reset the connection." ++ nl);
       EvReset]).
  { apply events_since_app. rewrite Es. reflexivity. }
  rewrite E. split; [reflexivity|]. split; [reflexivity|].
  split; [reflexivity|].
  split; [rewrite Es; reflexivity|]. split; [rewrite Es; reflexivity|].
  intros Hgo Hnc.
  assert (Hat' : vhal_talker_thread_ s' = AtSupervisor)
    by (rewrite Es; reflexivity).
  assert (Hgo' : should_continue_ s' = true) by (rewrite Es; exact Hgo).
  assert (Hs' : socket_client_ s' = Reset w2) by (rewrite Es; reflexivity).
  assert (Hnc' : Connected (socket_client_ s') = false)
    by (rewrite Hs'; exact Hnc).
  pose proof (thread_step_connect s' Hat' Hgo' Hnc') as St.
  cbv zeta in St. rewrite Hs' in St.
  destruct (fst (fst (Connect (Reset w2))));
    erewrite events_since_app by (rewrite St; cbn [events]; reflexivity);
    reflexivity.
Qed.

(** C2: when [Recv] returns exactly [sizeof(CtrlMessage)] bytes, the reader
    calls the registered handler exactly once in that pass of its loop,
    before the pass ends, with the record whose object representation is
    the bytes received: each of version, command, codec and resolution is
    the [int] read from its four bytes. *)
Theorem C2_full_read_dispatches
    (s : Impl) (cb : CameraCallback W) (fd ret_ revents errno : Z)
    (msg : string) (data : list byte) (w1 w2 : W)
    (Hw : (0 < size_t_bytes)%nat)
    (Hat : vhal_talker_thread_ s = AtPoll fd)
    (Hcb : callback_ s = Some cb)
    (Hpoll : poll fd POLLIN timeout_ms (socket_client_ s)
             = ((ret_, revents, errno), w1))
    (Hret : ret_ <> -1) (Hret0 : ret_ <> 0)
    (Hin : Z.land revents POLLIN <> 0)
    (Hrecv : Recv (Z.of_nat sizeof_CtrlMessage) w1
             = (((Z.of_nat sizeof_CtrlMessage, msg), data), w2))
    (Hlen : length data = sizeof_CtrlMessage) :
  let m := CtrlMessage_of_bytes big_endian data in
  let c := fst (cb m w2) in
  let s' := thread_step s in
  events_since s s'
  = [EvPoll fd POLLIN timeout_ms (ret_, revents, errno);
     EvCout ("Camera VHal has some message for us!" ++ nl);
     EvRecv (Z.of_nat sizeof_CtrlMessage)
       (Z.of_nat sizeof_CtrlMessage, msg) data;
     EvCallback m c]
  /\ filter is_Callback (events_since s s') = [EvCallback m c]
  /\ bytes_of_CtrlMessage big_endian m = data
  /\ version m = Repr.signed_of_bytes big_endian (slice 0 4 data)
  /\ cmd m = Repr.signed_of_bytes big_endian (slice 4 4 data)
  /\ codec_type (video_params m)
     = Repr.signed_of_bytes big_endian (slice 8 4 data)
  /\ resolution (video_params m)
     = Repr.signed_of_bytes big_endian (slice 12 4 data)
  /\ socket_client_ s' = snd (cb m w2)
  /\ vhal_talker_thread_ s'
     = match c with
       | Normal => AtPoll fd
       | Raised => Terminated handler_exception
       end.
Proof.
  intros m c s'.
  assert (Hr : ssize_t_range (Z.of_nat sizeof_CtrlMessage)).
  { destruct (half_range_big Hw) as [Hbig _].
    unfold Sink.ssize_t_range. change (Z.of_nat sizeof_CtrlMessage) with 32.
    lia. }
  assert (E : events s'
    = events s
      ++ [EvPoll fd POLLIN timeout_ms (ret_, revents, errno);
          EvCout ("Camera VHal has some message for us!" ++ nl);
          EvRecv (Z.of_nat sizeof_CtrlMessage)
            (Z.of_nat sizeof_CtrlMessage, msg) data;
          EvCallback m c]
    /\ socket_client_ s' = snd (cb m w2)
    /\ vhal_talker_thread_ s'
       = match c with
         | Normal => AtPoll fd
         | Raised => Terminated handler_exception
         end).
  { subst s'.
    rewrite (thread_step_readable s fd ret_ revents errno _ msg data
               w1 w2 Hat Hpoll Hret Hret0 Hin Hrecv).
    rewrite (to_size_t_eqb_sizeof _ Hw Hr), Z.eqb_refl.
    rewrite store_full
      by (rewrite bytes_of_CtrlMessage_length; exact Hlen).
    fold m. unfold call_callback. cbn [callback_ socket_client_].
    rewrite Hcb. subst c. destruct (cb m w2) as [c w3]. cbn [fst snd].
    unfold with_thread, record, with_socket; cbn.
    rewrite <- app_assoc.
    destruct c; repeat split; reflexivity. }
  destruct E as (E & Hs & Ht).
  rewrite (events_since_app _ _ _ E).
  repeat split; try assumption.
  apply bytes_of_CtrlMessage_of_bytes. exact Hlen.
Qed.

(** C8: when [poll] returns -1 the thread throws [system_error] out of its
    function: [Reset] is not called, nothing is retried, and the thread
    makes no further step, so it does not reach the connect phase again. *)
Theorem C8_poll_error_is_fatal
    (s : Impl) (fd revents errno : Z) (w1 : W)
    (Hat : vhal_talker_thread_ s = AtPoll fd)
    (Hpoll : poll fd POLLIN timeout_ms (socket_client_ s)
             = ((-1, revents, errno), w1)) :
  let s' := thread_step s in
  vhal_talker_thread_ s' = Terminated (system_error errno)
  /\ events_since s s' = [EvPoll fd POLLIN timeout_ms (-1, revents, errno)]
  /\ socket_client_ s' = w1
  /\ forall n, run n s' = s'.
Proof.
  intros s'.
  assert (E : s'
    = mkImpl (callback_ s) w1 (Terminated (system_error errno))
        (should_continue_ s)
        (events s ++ [EvPoll fd POLLIN timeout_ms (-1, revents, errno)])).
  { subst s'. unfold Sink.thread_step. rewrite Hat.
    unfold reader_iteration, bind, sys_poll. rewrite Hpoll.
    reflexivity. }
  rewrite E. repeat split.
  - apply events_since_app. reflexivity.
  - intros n. induction n as [|n IH]; [reflexivity|].
    cbn [Sink.run]. exact IH.
Qed.

(** C10: the stored handler is null after construction; [RegisterCallback]
    stores whatever it is given and returns true; and a full control record
    read while the handler is still null makes the reader call the null
    handler, which throws out of the thread's function: the dispatch is not
    skipped. *)
Theorem C10_null_handler_is_called
    (s : Impl) (fd ret_ revents errno : Z)
    (msg : string) (data : list byte) (w1 w2 : W)
    (Hw : (0 < size_t_bytes)%nat)
    (Hat : vhal_talker_thread_ s = AtPoll fd)
    (Hcb : callback_ s = None)
    (Hpoll : poll fd POLLIN timeout_ms (socket_client_ s)
             = ((ret_, revents, errno), w1))
    (Hret : ret_ <> -1) (Hret0 : ret_ <> 0)
    (Hin : Z.land revents POLLIN <> 0)
    (Hrecv : Recv (Z.of_nat sizeof_CtrlMessage) w1
             = (((Z.of_nat sizeof_CtrlMessage, msg), data), w2)) :
  (forall w : W, callback_ (construct w) = None)
  /\ (forall (cb : CameraCallback W) (s0 : Impl),
        fst (RegisterCallback cb s0) = true
        /\ callback_ (snd (RegisterCallback cb s0)) = Some cb)
  /\ vhal_talker_thread_ (thread_step s) = Terminated bad_function_call
  /\ events_since s (thread_step s)
     = [EvPoll fd POLLIN timeout_ms (ret_, revents, errno);
        EvCout ("Camera VHal has some message for us!" ++ nl);
        EvRecv (Z.of_nat sizeof_CtrlMessage)
          (Z.of_nat sizeof_CtrlMessage, msg) data].
Proof.
  split; [reflexivity|]. split; [intros cb s0; split; reflexivity|].
  assert (Hr : ssize_t_range (Z.of_nat sizeof_CtrlMessage)).
  { destruct (half_range_big Hw) as [Hbig _].
    unfold Sink.ssize_t_range. change (Z.of_nat sizeof_CtrlMessage) with 32.
    lia. }
  rewrite (thread_step_readable s fd ret_ revents errno _ msg data
             w1 w2 Hat Hpoll Hret Hret0 Hin Hrecv).
  rewrite (to_size_t_eqb_sizeof _ Hw Hr), Z.eqb_refl.
  unfold call_callback. cbn [callback_]. rewrite Hcb.
  split; [reflexivity|].
  apply events_since_app. reflexivity.
Qed.


Lemma run_plus_one (n : nat) (s : Impl) :
  run (S n) s = thread_step (run n s).
Proof.
  revert s. induction n as [|n IH]; intros s; [reflexivity|].
  change (run (S (S n)) s) with (run (S n) (thread_step s)).
  rewrite IH. reflexivity.
Qed.

(** The supervisor on a transport whose [Connect] fails [k] times first:
    where the thread stands and what it has done after each pass. *)
Lemma run_retries (k : nat) : forall s : Impl,
  vhal_talker_thread_ s = AtSupervisor ->
  should_continue_ s = true ->
  fails_then_succeeds k (socket_client_ s) ->
  (forall j, (j <= k)%nat -> vhal_talker_thread_ (run j s) = AtSupervisor)
  /\ run (S k) s
     = mkImpl (callback_ s) (after_connects (S k) (socket_client_ s))
         (AtPoll (GetNativeSocketFd
                    (after_connects (S k) (socket_client_ s))))
         true (events s ++ retry_events k (socket_client_ s)).
Proof.
  induction k as [|k IH]; intros s Hat Hgo [Hnc Hk].
  - split.
    + intros j Hj. replace j with 0%nat by lia. exact Hat.
    + cbn [Sink.run]. rewrite (thread_step_connect s Hat Hgo Hnc).
      rewrite Hk. reflexivity.
  - destruct Hk as [Hfail Hrest].
    pose proof (thread_step_connect s Hat Hgo Hnc) as St.
    cbv zeta in St. rewrite Hfail in St.
    destruct (IH (thread_step s)) as [Hbefore Hafter].
    + rewrite St. reflexivity.
    + rewrite St. reflexivity.
    + rewrite St. exact Hrest.
    + split.
      * intros [|j] Hj; [exact Hat|].
        cbn [Sink.run]. apply Hbefore. lia.
      * change (run (S (S k)) s) with (run (S k) (thread_step s)).
        rewrite Hafter, St. cbn [callback_ socket_client_ events].
        rewrite <- app_assoc. reflexivity.
Qed.

Lemma retry_events_connects (k : nat) : forall w : W,
  length (filter is_Connect (retry_events k w)) = S k
  /\ filter is_Sleep (retry_events k w) = repeat (EvSleep 33) k.
Proof.
  induction k as [|k IH]; intros w; [split; reflexivity|].
  destruct (IH (snd (Connect w))) as [Hc Hs].
  cbn [retry_events filter is_Connect is_Sleep length repeat].
  rewrite Hc, Hs. split; reflexivity.
Qed.

(** C5: on a transport that is not connected and whose [Connect] fails [k]
    times and then succeeds, for any [k], the supervisor makes exactly
    [k + 1] connect attempts, sleeps the same 33 ms after each failure, and
    is in the read phase after the attempt that succeeds and not before. *)
Theorem C5_connect_retried_until_success
    (k : nat) (s : Impl)
    (Hat : vhal_talker_thread_ s = AtSupervisor)
    (Hgo : should_continue_ s = true)
    (Hconn : fails_then_succeeds k (socket_client_ s)) :
  (forall j, (j <= k)%nat -> vhal_talker_thread_ (run j s) = AtSupervisor)
  /\ vhal_talker_thread_ (run (S k) s)
     = AtPoll (GetNativeSocketFd (after_connects (S k) (socket_client_ s)))
  /\ events_since s (run (S k) s) = retry_events k (socket_client_ s)
  /\ length (filter is_Connect (events_since s (run (S k) s))) = S k
  /\ filter is_Sleep (events_since s (run (S k) s))
     = repeat (EvSleep 33) k.
Proof.
  destruct (run_retries k s Hat Hgo Hconn) as [Hbefore Hafter].
  assert (E : events_since s (run (S k) s)
              = retry_events k (socket_client_ s)).
  { apply events_since_app. rewrite Hafter. reflexivity. }
  rewrite E.
  destruct (retry_events_connects k (socket_client_ s)) as [Hc Hs].
  repeat split; try assumption.
  rewrite Hafter. reflexivity.
Qed.

(** A timeout leaves the thread in the inner loop, whatever the flag. *)
Lemma thread_step_timeout (s : Impl) (fd : Z) :
  vhal_talker_thread_ s = AtPoll fd ->
  fst (fst (fst (poll fd POLLIN timeout_ms (socket_client_ s)))) = 0 ->
  let a := poll fd POLLIN timeout_ms (socket_client_ s) in
  thread_step s
  = mkImpl (callback_ s) (snd a) (AtPoll fd) (should_continue_ s)
      (events s ++ [EvPoll fd POLLIN timeout_ms (fst a)]).
Proof.
  intros Hat Hto a. subst a.
  unfold Sink.thread_step. rewrite Hat.
  unfold reader_iteration, bind, sys_poll.
  destruct (poll fd POLLIN timeout_ms (socket_client_ s))
    as [[[ret_ revents] errno] w1].
  cbn [fst snd] in *. subst ret_. reflexivity.
Qed.

(** The flag is read at the head of the outer loop: a stop requested while
    the thread is there is seen in the next pass. *)
Lemma stop_seen_at_supervisor (s : Impl) :
  vhal_talker_thread_ s = AtSupervisor ->
  joinable_done (thread_step (request_stop s)) = true.
Proof.
  intros Hat. unfold Sink.thread_step, request_stop.
  cbn [vhal_talker_thread_]. rewrite Hat. reflexivity.
Qed.

(** C4, what the code does: with the stop flag set while the thread is in
    the readiness wait and nothing arriving on the descriptor, the thread is
    still in the inner loop after any number of poll timeouts; it never
    returns, so the destructor's [join] never completes. *)
Theorem C4_stop_not_seen_in_reader
    (Q : W -> Prop) (fd : Z) (s : Impl) (n : nat)
    (Hquiet : always_times_out fd Q)
    (Hat : vhal_talker_thread_ s = AtPoll fd)
    (Hq : Q (socket_client_ s)) :
  let s' := run n (request_stop s) in
  should_continue_ s' = false
  /\ vhal_talker_thread_ s' = AtPoll fd
  /\ joinable_done s' = false
  /\ length (events_since s s') = n.
Proof.
  intros s'.
  assert (Inv : should_continue_ s' = false
                /\ vhal_talker_thread_ s' = AtPoll fd
                /\ Q (socket_client_ s')
                /\ length (events s') = (length (events s) + n)%nat).
  { subst s'. induction n as [|n IH].
    - cbn [Sink.run request_stop should_continue_ vhal_talker_thread_
           socket_client_ events].
      repeat split; try assumption. lia.
    - destruct IH as (Hsc & Ht & Hqn & Hlen).
      destruct (Hquiet _ Hqn) as [Hto Hq'].
      rewrite run_plus_one, (thread_step_timeout _ fd Ht Hto).
      cbn [should_continue_ vhal_talker_thread_ socket_client_ events].
      rewrite length_app, Hlen. cbn [length].
      repeat split; try assumption. lia. }
  destruct Inv as (Hsc & Ht & _ & Hlen).
  repeat split; try assumption.
  - unfold joinable_done. rewrite Ht. reflexivity.
  - unfold events_since. rewrite length_skipn. lia.
Qed.

End Claims.

(** ** The theorems on concrete runs *)

Import Scripted Scenario.

(** C1, as stated, fails: on a connected transport whose header write
    returns -1 the call makes one write, not two. *)
Lemma C1_counterexample :
  let s := connected_sink [(-1, "Broken pipe"%string)] [] [] in
  let s' := snd (Sink.SendDataPacket 8 false payload 3 s) in
  Connected (socket_client_ s) = true
  /\ filter is_Send (events_since s s')
     = [EvSend (Sink.size_header 8 false 3) 8 (-1, "Broken pipe"%string)]
  /\ length (filter is_Send (events_since s s')) <> 2%nat.
Proof.
  cbv zeta. split; [reflexivity|]. split; [reflexivity|].
  vm_compute. discriminate.
Qed.

Lemma C6_header_write_fails_witness :
  let s := connected_sink [(-1, "Broken pipe"%string)] [] [] in
  fst (Send (Sink.size_header 8 false 3) 8 (socket_client_ s))
  = (-1, "Broken pipe"%string)
  /\ fst (Sink.SendDataPacket 8 false payload 3 s)
     = (-1, "Error in writing payload size to Camera VHal: Broken pipe"%string).
Proof.
  cbv zeta. split; [reflexivity|].
  exact (proj1 (C6_header_write_fails 8 false payload 3
                  (connected_sink [(-1, "Broken pipe"%string)] [] [])
                  "Broken pipe"
                  (snd (Send (Sink.size_header 8 false 3) 8
                          (socket_client_
                             (connected_sink
                                [(-1, "Broken pipe"%string)] [] []))))
                  eq_refl)).
Defined.


Lemma C7_payload_write_fails_witness :
  let s := connected_sink
             [(8, EmptyString); (-1, "Connection reset by peer"%string)]
             [] [] in
  let s' := snd (Sink.SendDataPacket 8 false payload 3 s) in
  fst (fst (Send (Sink.size_header 8 false 3) 8 (socket_client_ s))) <> -1
  /\ events_since s s'
     = [EvSend (Sink.size_header 8 false 3) 8 (8, EmptyString);
        EvSend payload 3 (-1, "Connection reset by peer"%string);
        EvReset]
  /\ sent (socket_client_ s') = [Sink.size_header 8 false 3].
Proof.
  cbv zeta. split; [discriminate|]. split; [|reflexivity].
  pose (s := connected_sink
               [(8, EmptyString); (-1, "Connection reset by peer"%string)]
               [] []).
  pose (a1 := Send (Sink.size_header 8 false 3) 8 (socket_client_ s)).
  exact (proj1 (proj2 (proj2
           (C7_payload_write_fails 8 false payload 3 s
              (fst a1) "Connection reset by peer"
              (snd a1) (snd (Send payload 3 (snd a1)))
              eq_refl ltac:(discriminate) eq_refl)))).
Defined.

(** C9, as stated, fails: the message of a successful call is the
    transport's, and a transport may report success with a message. *)
Lemma C9_counterexample :
  let s := connected_sink [(8, "ok"%string); (3, "ok"%string)] [] [] in
  let s2 := connected_sink [(3, "ok"%string)] [] [] in
  fst (Sink.SendDataPacket 8 false payload 3 s) = (3, "ok"%string)
  /\ snd (fst (Sink.SendDataPacket 8 false payload 3 s)) <> EmptyString
  /\ fst (SendRawPacket payload 3 s2) = (3, "ok"%string)
  /\ snd (fst (SendRawPacket payload 3 s2)) <> EmptyString.
Proof.
  cbv zeta. repeat split; discriminate.
Qed.

Lemma C9_success_passes_transport_result_witness :
  let s := connected_sink [(8, EmptyString); (3, EmptyString)] [] [] in
  fst (Sink.SendDataPacket 8 false payload 3 s) = (3, EmptyString)
  /\ fst (SendRawPacket payload 3 s) = (8, EmptyString).
Proof.
  cbv zeta.
  pose (s := connected_sink [(8, EmptyString); (3, EmptyString)] [] []).
  pose (a1 := Send (Sink.size_header 8 false 3) 8 (socket_client_ s)).
  pose (a2 := Send payload 3 (snd a1)).
  pose (a := Send payload 3 (socket_client_ s)).
  pose proof (C9_success_passes_transport_result 8 false payload 3 s
                (fst a1) (fst a2) (fst a) (snd a1) (snd a2) (snd a)
                eq_refl ltac:(discriminate) eq_refl ltac:(discriminate)
                eq_refl ltac:(discriminate)) as [[Hd _] [Hr _]].
  split; [exact Hd | exact Hr].
Defined.

Lemma C2_full_read_dispatches_witness :
  let s := snd (RegisterCallback quiet_handler
                  (connected_sink [] [((32, EmptyString), open_720p_bytes)]
                     [readable])) in
  vhal_talker_thread_ s = AtPoll 7
  /\ filter is_Callback
       (events_since s (Sink.thread_step 8 false garbage s))
     = [EvCallback open_720p Normal].
Proof.
  cbv zeta. split; [reflexivity|].
  pose (s := snd (RegisterCallback quiet_handler
                    (connected_sink
                       [] [((32, EmptyString), open_720p_bytes)]
                       [readable]))).
  pose (a1 := poll 7 POLLIN Sink.timeout_ms (socket_client_ s)).
  exact (proj1 (proj2
           (C2_full_read_dispatches 8 false garbage s quiet_handler
              7 1 POLLIN 0 EmptyString open_720p_bytes
              (snd a1) (snd (Recv 32 (snd a1)))
              ltac:(lia) eq_refl eq_refl eq_refl
              ltac:(discriminate) ltac:(discriminate) ltac:(discriminate)
              eq_refl eq_refl))).
Defined.

Lemma C3_short_read_resets_witness :
  let s := connected_sink [] [((0, "peer closed"%string), [])] [readable] in
  let s' := Sink.thread_step 8 false garbage s in
  0 < Z.of_nat sizeof_CtrlMessage
  /\ filter is_Callback (events_since s s') = []
  /\ filter is_Reset (events_since s s') = [EvReset]
  /\ vhal_talker_thread_ s' = AtSupervisor
  /\ hd_error (events_since s' (Sink.thread_step 8 false garbage s'))
     = Some (EvConnect (true, EmptyString)).
Proof.
  cbv zeta. split; [reflexivity|].
  pose (s := connected_sink [] [((0, "peer closed"%string), [])] [readable]).
  pose (a1 := poll 7 POLLIN Sink.timeout_ms (socket_client_ s)).
  destruct (C3_short_read_resets 8 false garbage s
              7 1 POLLIN 0 0 "peer closed" [] (snd a1)
              (snd (Recv 32 (snd a1)))
              ltac:(lia) eq_refl eq_refl
              ltac:(discriminate) ltac:(discriminate) ltac:(discriminate)
              eq_refl
              ltac:(split; [discriminate | reflexivity])
              ltac:(reflexivity))
    as (E & Hc & _ & _ & Ht & Hnext).
  split; [exact Hc|]. split; [fold s; rewrite E; reflexivity|].
  split; [exact Ht|]. exact (Hnext eq_refl eq_refl).
Defined.

Lemma C8_poll_error_is_fatal_witness :
  let s := connected_sink [] [] [(-1, 0, 4)] in
  let s' := Sink.thread_step 8 false garbage s in
  vhal_talker_thread_ s' = Terminated (system_error 4)
  /\ Sink.run 8 false garbage 10 s' = s'.
Proof.
  cbv zeta.
  pose (s := connected_sink [] [] [(-1, 0, 4)]).
  pose (a1 := poll 7 POLLIN Sink.timeout_ms (socket_client_ s)).
  assert (Hp : poll 7 POLLIN Sink.timeout_ms (socket_client_ s)
               = ((-1, 0, 4), snd a1)) by reflexivity.
  destruct (C8_poll_error_is_fatal 8 false garbage s 7 0 4 (snd a1)
              eq_refl Hp)
    as (Ht & _ & _ & Hstay).
  split; [exact Ht | exact (Hstay 10%nat)].
Defined.

Lemma C10_null_handler_is_called_witness :
  let s := connected_sink [] [((32, EmptyString), open_720p_bytes)]
             [readable] in
  callback_ s = None
  /\ vhal_talker_thread_ (Sink.thread_step 8 false garbage s)
     = Terminated bad_function_call.
Proof.
  cbv zeta. split; [reflexivity|].
  pose (s := connected_sink [] [((32, EmptyString), open_720p_bytes)]
               [readable]).
  pose (a1 := poll 7 POLLIN Sink.timeout_ms (socket_client_ s)).
  exact (proj1 (proj2 (proj2
           (C10_null_handler_is_called 8 false garbage s
              7 1 POLLIN 0 EmptyString open_720p_bytes
              (snd a1) (snd (Recv 32 (snd a1)))
              ltac:(lia) eq_refl eq_refl eq_refl
              ltac:(discriminate) ltac:(discriminate) ltac:(discriminate)
              eq_refl)))).
Defined.

Lemma C5_connect_retried_until_success_witness :
  let w := fresh [(false, "Connection refused"%string);
                  (false, "Connection refused"%string);
                  (true, EmptyString)] [] [] [] in
  let s := Sink.construct w in
  Sink.fails_then_succeeds 2 w
  /\ vhal_talker_thread_ (Sink.run 8 false garbage 2 s) = AtSupervisor
  /\ vhal_talker_thread_ (Sink.run 8 false garbage 3 s) = AtPoll 7
  /\ length (filter is_Connect
               (events_since s (Sink.run 8 false garbage 3 s))) = 3%nat.
Proof.
  cbv zeta.
  pose (w := fresh [(false, "Connection refused"%string);
                    (false, "Connection refused"%string);
                    (true, EmptyString)] [] [] []).
  assert (Hf : Sink.fails_then_succeeds 2 w).
  { cbn. repeat split; reflexivity. }
  destruct (C5_connect_retried_until_success 8 false garbage 2
              (Sink.construct w) eq_refl eq_refl Hf)
    as (Hbefore & Hafter & _ & Hcount & _).
  split; [exact Hf|]. split; [exact (Hbefore 2%nat (le_n 2))|].
  split; [exact Hafter | exact Hcount].
Defined.

Lemma C4_stop_not_seen_in_reader_witness :
  let s := connected_sink [] [] [] in
  vhal_talker_thread_ s = AtPoll 7
  /\ Sink.joinable_done
       (Sink.run 8 false garbage 5 (request_stop s)) = false.
Proof.
  cbv zeta. split; [reflexivity|].
  assert (Hq : Sink.always_times_out 7 idle).
  { intros w Hw. unfold idle in *. cbn. rewrite Hw. split; reflexivity. }
  exact (proj1 (proj2 (proj2
           (C4_stop_not_seen_in_reader 8 false garbage idle 7
              (connected_sink [] [] []) 5 Hq eq_refl eq_refl)))).
Defined.

End SinkSpec.

(** * More of the sink: the framer, the reader and the supervisor *)

Module SinkMore.
Import Sink SinkSpec.

Section More.

Context {W : Type} `{IStreamSocketClient W} `{PollSyscall W}.
Variable size_t_bytes : nat.
Variable big_endian : bool.
Variable indeterminate : list Z.

Local Abbreviation Impl := (@Sink.Impl W).
Local Abbreviation SendDataPacket :=
  (Sink.SendDataPacket size_t_bytes big_endian).
Local Abbreviation two_raw_packets :=
  (Sink.two_raw_packets size_t_bytes big_endian).
Local Abbreviation size_header := (Sink.size_header size_t_bytes big_endian).
Local Abbreviation thread_step :=
  (Sink.thread_step size_t_bytes big_endian indeterminate).
Local Abbreviation run := (Sink.run size_t_bytes big_endian indeterminate).
Local Abbreviation ssize_t_range := (Sink.ssize_t_range size_t_bytes).
Local Abbreviation size_t_range := (Sink.size_t_range size_t_bytes).


(** ** The framer *)

(** X1: when its one write returns -1, [SendRawPacket] calls [Reset] and
    returns -1 with the transport's message behind the payload prefix; the
    write and the reset are all it does. *)
Theorem X1_raw_packet_write_fails
    (packet : list byte) (size : Z) (s : Impl) (msg : string) (w1 : W)
    (Hsend : Send packet size (socket_client_ s) = ((-1, msg), w1)) :
  let res := fst (SendRawPacket packet size s) in
  let s' := snd (SendRawPacket packet size s) in
  res = (-1, ("Error in writing payload to Camera VHal: " ++ msg)%string)
  /\ events_since s s' = [EvSend packet size (-1, msg); EvReset]
  /\ socket_client_ s' = Reset w1.
Proof.
  intros res s'. subst res s'. rewrite SendRawPacket_cases, Hsend.
  cbn [fst snd]. rewrite Z.eqb_refl. cbn [fst snd].
  repeat split. apply events_since_app. reflexivity.
Qed.

(** X2: when the header write does not return -1, [SendDataPacket] is the
    two [SendRawPacket] calls of its documentation: the same result and the
    same sink afterwards. *)
Theorem X2_data_packet_is_two_raw_packets
    (packet : list byte) (size : Z) (s : Impl)
    (Hok : fst (fst (Send (size_header size) (Z.of_nat size_t_bytes)
                       (socket_client_ s))) <> -1) :
  SendDataPacket packet size s = two_raw_packets packet size s.
Proof.
  apply Z.eqb_neq in Hok.
  rewrite SendDataPacket_cases. cbv zeta. rewrite Hok.
  unfold Sink.two_raw_packets, bind.
  rewrite (SendRawPacket_cases (size_header size)). cbv zeta.
  rewrite Hok. rewrite SendRawPacket_cases. cbv zeta.
  cbn [socket_client_ callback_ vhal_talker_thread_ should_continue_ events].
  destruct (fst (fst (Send packet size _)) =? -1);
    rewrite <- app_assoc; reflexivity.
Qed.

(** X3: when the header write returns -1 the two differ: [SendDataPacket]
    stops after the header write, and the two [SendRawPacket] calls go on to
    write the payload on the transport that was just reset. *)
Theorem X3_data_packet_stops_where_raw_packets_go_on
    (packet : list byte) (size : Z) (s : Impl) (msg : string) (w1 : W)
    (Hsend : Send (size_header size) (Z.of_nat size_t_bytes)
               (socket_client_ s) = ((-1, msg), w1)) :
  events_since s (snd (SendDataPacket packet size s))
  = [EvSend (size_header size) (Z.of_nat size_t_bytes) (-1, msg); EvReset]
  /\ filter is_Send (events_since s (snd (two_raw_packets packet size s)))
     = [EvSend (size_header size) (Z.of_nat size_t_bytes) (-1, msg);
        EvSend packet size (fst (Send packet size (Reset w1)))].
Proof.
  split.
  - apply events_since_app. rewrite SendDataPacket_cases, Hsend.
    cbn [fst snd]. rewrite Z.eqb_refl. reflexivity.
  - unfold Sink.two_raw_packets, bind.
    rewrite (SendRawPacket_cases (size_header size)). cbv zeta.
    rewrite Hsend. cbn [fst snd]. rewrite Z.eqb_refl.
    rewrite SendRawPacket_cases. cbv zeta.
    cbn [socket_client_ callback_ vhal_talker_thread_ should_continue_
         events].
    destruct (fst (fst (Send packet size (Reset w1))) =? -1); cbn [snd];
      erewrite events_since_app
        by (cbn [events]; rewrite <- app_assoc; reflexivity);
      reflexivity.
Qed.

(** X4: the framer only writes and resets.  Whatever the transport answers,
    [SendDataPacket] and [SendRawPacket] keep the handler, the thread and the
    stop flag as they are, keep the earlier events, and add only [Send] and
    [Reset] calls. *)
Theorem X4_framer_only_sends_and_resets
    (packet : list byte) (size : Z) (s : Impl) :
  let d := snd (SendDataPacket packet size s) in
  let r := snd (SendRawPacket packet size s) in
  (callback_ d = callback_ s
   /\ vhal_talker_thread_ d = vhal_talker_thread_ s
   /\ should_continue_ d = should_continue_ s
   /\ events d = events s ++ events_since s d
   /\ forallb is_Send_or_Reset (events_since s d) = true)
  /\ (callback_ r = callback_ s
      /\ vhal_talker_thread_ r = vhal_talker_thread_ s
      /\ should_continue_ r = should_continue_ s
      /\ events r = events s ++ events_since s r
      /\ forallb is_Send_or_Reset (events_since s r) = true).
Proof.
  intros d r. subst d r. split.
  - rewrite SendDataPacket_cases. cbv zeta.
    destruct (fst (fst (Send (size_header size) _ _)) =? -1);
      [|destruct (fst (fst (Send packet size _)) =? -1)];
      cbn [snd callback_ vhal_talker_thread_ should_continue_ events];
      (erewrite events_since_app by (cbn [events]; reflexivity));
      repeat split.
  - rewrite SendRawPacket_cases. cbv zeta.
    destruct (fst (fst (Send packet size _)) =? -1);
      cbn [snd callback_ vhal_talker_thread_ should_continue_ events];
      (erewrite events_since_app by (cbn [events]; reflexivity));
      repeat split.
Qed.

(** X5: a send returns -1 exactly when it has reset the transport, for
    [SendDataPacket] and for [SendRawPacket]. *)
Theorem X5_minus_one_iff_reset
    (packet : list byte) (size : Z) (s : Impl) :
  (fst (fst (SendDataPacket packet size s)) = -1
   <-> existsb is_Reset
         (events_since s (snd (SendDataPacket packet size s))) = true)
  /\ (fst (fst (SendRawPacket packet size s)) = -1
      <-> existsb is_Reset
            (events_since s (snd (SendRawPacket packet size s))) = true).
Proof.
  split.
  - rewrite SendDataPacket_cases. cbv zeta.
    destruct (Z.eqb_spec
                (fst (fst (Send (size_header size)
                             (Z.of_nat size_t_bytes) (socket_client_ s))))
                (-1)) as [E1|E1];
      [|destruct (Z.eqb_spec
                    (fst (fst (Send packet size
                                 (snd (Send (size_header size)
                                         (Z.of_nat size_t_bytes)
                                         (socket_client_ s))))))
                    (-1)) as [E2|E2]];
      cbn [fst snd];
      (erewrite events_since_app by (cbn [events]; reflexivity));
      cbn [existsb is_Reset orb]; split; intros; try congruence;
      try discriminate.
  - rewrite SendRawPacket_cases. cbv zeta.
    destruct (Z.eqb_spec
                (fst (fst (Send packet size (socket_client_ s)))) (-1))
      as [E|E];
      cbn [fst snd];
      (erewrite events_since_app by (cbn [events]; reflexivity));
      cbn [existsb is_Reset orb]; split; intros; try congruence;
      try discriminate.
Qed.

(** X6: the length header determines the length.  For lengths in the range
    of [size_t], reading the header back gives the length, so two lengths
    with the same header are equal. *)
Theorem X6_size_header_round_trip (a b : Z)
    (Ha : size_t_range a) (Hb : size_t_range b) :
  Repr.unsigned_of_bytes big_endian (size_header a) = a
  /\ (size_header a = size_header b -> a = b).
Proof.
  assert (R : forall z, size_t_range z ->
                Repr.unsigned_of_bytes big_endian (size_header z) = z).
  { intros z Hz. unfold Sink.size_header.
    rewrite ReprFacts.unsigned_of_to_bytes. apply Z.mod_small. exact Hz. }
  split; [apply R; exact Ha|].
  intros E. rewrite <- (R a Ha), <- (R b Hb), E. reflexivity.
Qed.


(** ** The thread *)




(** X7: a pass of the reader in which [poll] reports a timeout, or reports
    events that do not include [POLLIN] (a hang-up or an error condition
    alone), does nothing but that [poll]: no read, no reset, no handler
    call, and the thread polls the same descriptor again. *)
Theorem X7_pass_without_input_only_polls
    (s : Impl) (fd ret_ revents errno : Z) (w1 : W)
    (Hat : vhal_talker_thread_ s = AtPoll fd)
    (Hpoll : poll fd POLLIN timeout_ms (socket_client_ s)
             = ((ret_, revents, errno), w1))
    (Hret : ret_ <> -1)
    (Hnone : ret_ = 0 \/ Z.land revents POLLIN = 0) :
  thread_step s
  = mkImpl (callback_ s) w1 (AtPoll fd) (should_continue_ s)
      (events s ++ [EvPoll fd POLLIN timeout_ms (ret_, revents, errno)]).
Proof.
  apply Z.eqb_neq in Hret.
  unfold Sink.thread_step. rewrite Hat.
  unfold reader_iteration, bind, sys_poll. rewrite Hpoll, Hret.
  destruct (Z.eqb_spec ret_ 0) as [E0|E0]; [reflexivity|].
  destruct Hnone as [E|E]; [contradiction|].
  rewrite E. reflexivity.
Qed.

(** X8: a count larger than the record is treated like a short one: the
    reader compares with [!=], so it resets, does not call the handler, and
    goes back to the supervisor. *)
Theorem X8_long_count_resets
    (s : Impl) (fd ret_ revents errno received : Z) (msg : string)
    (data : list byte) (w1 w2 : W)
    (Hw : (0 < size_t_bytes)%nat)
    (Hat : vhal_talker_thread_ s = AtPoll fd)
    (Hpoll : poll fd POLLIN timeout_ms (socket_client_ s)
             = ((ret_, revents, errno), w1))
    (Hret : ret_ <> -1) (Hret0 : ret_ <> 0)
    (Hin : Z.land revents POLLIN <> 0)
    (Hrecv : Recv (Z.of_nat sizeof_CtrlMessage) w1
             = (((received, msg), data), w2))
    (Hrange : ssize_t_range received)
    (Hlong : Z.of_nat sizeof_CtrlMessage < received) :
  thread_step s
  = mkImpl (callback_ s) (Reset w2) AtSupervisor (should_continue_ s)
      (events s
       ++ [EvPoll fd POLLIN timeout_ms (ret_, revents, errno);
           EvCout ("Camera VHal has some message for us!" ++ nl);
           EvRecv (Z.of_nat sizeof_CtrlMessage) (received, msg) data;
           EvCout ("Failed to read message from VideoSink: " ++ msg
                   ++ ", reset the connection." ++ nl);
           EvReset]).
Proof.
  rewrite (thread_step_readable size_t_bytes big_endian indeterminate
             s fd ret_ revents errno received msg data w1 w2
             Hat Hpoll Hret Hret0 Hin Hrecv).
  rewrite (to_size_t_eqb_sizeof size_t_bytes received Hw Hrange).
  replace (received =? Z.of_nat sizeof_CtrlMessage) with false
    by (symmetry; apply Z.eqb_neq; lia).
  cbn [events]. rewrite <- app_assoc. reflexivity.
Qed.

(** X9: when the transport reports that it is connected, the supervisor
    does not call [Connect]: it announces the connection, takes the
    descriptor and enters the reader. *)
Theorem X9_connected_transport_is_not_reconnected
    (s : Impl)
    (Hat : vhal_talker_thread_ s = AtSupervisor)
    (Hgo : should_continue_ s = true)
    (Hconn : Connected (socket_client_ s) = true) :
  thread_step s
  = mkImpl (callback_ s) (socket_client_ s)
      (AtPoll (GetNativeSocketFd (socket_client_ s))) true
      (events s ++ [EvCout (" Connected to Camera VHal!" ++ nl)]).
Proof.
  unfold Sink.thread_step. rewrite Hat.
  unfold supervisor_iteration, bind, get_should_continue, socket_Connected.
  rewrite Hgo. cbn [negb]. cbv beta iota. rewrite Hconn. cbn [negb].
  unfold enter_reader, bind, cout, socket_GetNativeSocketFd, ret,
    with_thread, record.
  cbn [callback_ socket_client_ vhal_talker_thread_ should_continue_ events].
  rewrite Hgo. reflexivity.
Qed.

Lemma run_returned (n : nat) (s : Impl) :
  vhal_talker_thread_ s = Returned -> run n s = s.
Proof.
  intros Hr. induction n as [|n IH]; [reflexivity|].
  cbn [Sink.run]. unfold Sink.thread_step. rewrite Hr. exact IH.
Qed.

(** X10: a stop requested while the thread is at the head of the outer loop
    (between connect attempts, or after a reset) is seen in the next pass:
    the thread returns without one more call to the transport, and stays
    returned, so the destructor's [join] completes. *)
Theorem X10_stop_seen_at_supervisor
    (s : Impl) (n : nat)
    (Hat : vhal_talker_thread_ s = AtSupervisor) :
  let s' := run (S n) (request_stop s) in
  s' = mkImpl (callback_ s) (socket_client_ s) Returned false (events s)
  /\ joinable_done s' = true.
Proof.
  intros s'.
  assert (E : thread_step (request_stop s)
              = mkImpl (callback_ s) (socket_client_ s) Returned false
                  (events s)).
  { unfold Sink.thread_step, request_stop.
    cbn [vhal_talker_thread_]. rewrite Hat. reflexivity. }
  subst s'. cbn [Sink.run]. rewrite E.
  rewrite run_returned by reflexivity. split; reflexivity.
Qed.

(** X11: a stop requested while the thread is in the reader is seen once a
    read comes back short: that pass resets and leaves the inner loop, the
    next pass returns, and [Connect] is not called again. *)
Theorem X11_stop_seen_after_short_read
    (s : Impl) (fd ret_ revents errno received : Z) (msg : string)
    (data : list byte) (w1 w2 : W)
    (Hw : (0 < size_t_bytes)%nat)
    (Hat : vhal_talker_thread_ s = AtPoll fd)
    (Hstop : should_continue_ s = false)
    (Hpoll : poll fd POLLIN timeout_ms (socket_client_ s)
             = ((ret_, revents, errno), w1))
    (Hret : ret_ <> -1) (Hret0 : ret_ <> 0)
    (Hin : Z.land revents POLLIN <> 0)
    (Hrecv : Recv (Z.of_nat sizeof_CtrlMessage) w1
             = (((received, msg), data), w2))
    (Hrange : ssize_t_range received)
    (Hshort : received < Z.of_nat sizeof_CtrlMessage) :
  vhal_talker_thread_ (run 2 s) = Returned
  /\ socket_client_ (run 2 s) = Reset w2
  /\ filter is_Connect (events_since s (run 2 s)) = [].
Proof.
  cbn [Sink.run].
  rewrite (thread_step_readable size_t_bytes big_endian indeterminate
             s fd ret_ revents errno received msg data w1 w2
             Hat Hpoll Hret Hret0 Hin Hrecv).
  rewrite (to_size_t_eqb_sizeof size_t_bytes received Hw Hrange).
  replace (received =? Z.of_nat sizeof_CtrlMessage) with false
    by (symmetry; apply Z.eqb_neq; lia).
  unfold Sink.thread_step at 1. cbn [vhal_talker_thread_].
  unfold supervisor_iteration, bind, get_should_continue.
  cbn [should_continue_]. rewrite Hstop. cbn [negb].
  unfold ret, with_thread.
  cbn [callback_ socket_client_ vhal_talker_thread_ should_continue_ events].
  repeat split.
  erewrite events_since_app
    by (cbn [events]; rewrite <- app_assoc; reflexivity).
  reflexivity.
Qed.


(** The supervisor on a transport that refuses every connection. *)
Lemma run_refused (Q : W -> Prop) (n : nat) : forall s : Impl,
  always_refuses Q ->
  vhal_talker_thread_ s = AtSupervisor ->
  should_continue_ s = true ->
  Q (socket_client_ s) ->
  vhal_talker_thread_ (run n s) = AtSupervisor
  /\ should_continue_ (run n s) = true
  /\ Q (socket_client_ (run n s))
  /\ exists d,
       events (run n s) = events s ++ d
       /\ length (filter is_Connect d) = n
       /\ filter is_Sleep d = repeat (EvSleep 33) n
       /\ filter is_Recv d = [].
Proof.
  induction n as [|n IH]; intros s Hq Hat Hgo Hs.
  - cbn [Sink.run]. repeat split; try assumption.
    exists []. rewrite app_nil_r. repeat split.
  - destruct (Hq _ Hs) as (Hnc & Hfail & Hq').
    pose proof (thread_step_connect size_t_bytes big_endian indeterminate
                  s Hat Hgo Hnc) as St.
    cbv zeta in St. rewrite Hfail in St.
    destruct (IH (thread_step s) Hq)
      as (Ht & Hg & Hw & d & Hd & Hc & Hsl & Hrv);
      try (rewrite St; cbn [vhal_talker_thread_ should_continue_
                            socket_client_]; first [reflexivity | exact Hq']).
    cbn [Sink.run]. repeat split; try assumption.
    eexists. split.
    + rewrite Hd, St. cbn [events]. rewrite <- app_assoc. reflexivity.
    + cbn [app filter is_Connect is_Sleep is_Recv length repeat].
      rewrite Hc, Hsl, Hrv. repeat split.
Qed.

(** X12: on a transport that refuses every connection the supervisor never
    gives up and never reaches the reader: after any number [n] of passes it
    has called [Connect] [n] times, slept 33 ms [n] times, read nothing, and
    stands at the head of its loop. *)
Theorem X12_refused_connection_is_retried_for_ever
    (Q : W -> Prop) (s : Impl) (n : nat)
    (Hq : always_refuses Q)
    (Hat : vhal_talker_thread_ s = AtSupervisor)
    (Hgo : should_continue_ s = true)
    (Hs : Q (socket_client_ s)) :
  vhal_talker_thread_ (run n s) = AtSupervisor
  /\ length (filter is_Connect (events_since s (run n s))) = n
  /\ filter is_Sleep (events_since s (run n s)) = repeat (EvSleep 33) n
  /\ filter is_Recv (events_since s (run n s)) = [].
Proof.
  destruct (run_refused Q n s Hq Hat Hgo Hs)
    as (Ht & _ & _ & d & Hd & Hc & Hsl & Hrv).
  rewrite (events_since_app _ _ _ Hd).
  repeat split; assumption.
Qed.


(** X14: the last registration wins.  After two calls of [RegisterCallback]
    a full control record goes to the second handler, once, and the first
    is not called; registering changes nothing else of the sink. *)
Theorem X14_last_registered_handler_is_called
    (s0 : Impl) (cb1 cb2 : CameraCallback W) (fd ret_ revents errno : Z)
    (msg : string) (data : list byte) (w1 w2 : W)
    (Hw : (0 < size_t_bytes)%nat)
    (Hat : vhal_talker_thread_ s0 = AtPoll fd)
    (Hpoll : poll fd POLLIN timeout_ms (socket_client_ s0)
             = ((ret_, revents, errno), w1))
    (Hret : ret_ <> -1) (Hret0 : ret_ <> 0)
    (Hin : Z.land revents POLLIN <> 0)
    (Hrecv : Recv (Z.of_nat sizeof_CtrlMessage) w1
             = (((Z.of_nat sizeof_CtrlMessage, msg), data), w2))
    (Hlen : length data = sizeof_CtrlMessage) :
  let s := snd (RegisterCallback cb2 (snd (RegisterCallback cb1 s0))) in
  let m := CtrlMessage_of_bytes big_endian data in
  s = mkImpl (Some cb2) (socket_client_ s0) (vhal_talker_thread_ s0)
        (should_continue_ s0) (events s0)
  /\ filter is_Callback (events_since s (thread_step s))
     = [EvCallback m (fst (cb2 m w2))]
  /\ socket_client_ (thread_step s) = snd (cb2 m w2).
Proof.
  intros s m. split; [reflexivity|].
  assert (Hr : ssize_t_range (Z.of_nat sizeof_CtrlMessage)).
  { destruct (half_range_big size_t_bytes Hw) as [Hbig _].
    unfold Sink.ssize_t_range. change (Z.of_nat sizeof_CtrlMessage) with 32.
    lia. }
  rewrite (thread_step_readable size_t_bytes big_endian indeterminate
             s fd ret_ revents errno _ msg data w1 w2
             Hat Hpoll Hret Hret0 Hin Hrecv).
  rewrite (to_size_t_eqb_sizeof size_t_bytes _ Hw Hr), Z.eqb_refl.
  rewrite store_full by (rewrite bytes_of_CtrlMessage_length; exact Hlen).
  fold m. unfold call_callback. cbn [callback_ socket_client_ s snd
                                     RegisterCallback].
  destruct (cb2 m w2) as [c w3]. cbn [fst snd].
  unfold with_thread, record, with_socket.
  cbn [callback_ socket_client_ vhal_talker_thread_ should_continue_ events].
  split; [|reflexivity].
  erewrite events_since_app
    by (cbn [events]; rewrite <- app_assoc; reflexivity).
  reflexivity.
Qed.


(** ** The control record *)

(** X15: any 32 bytes are the object representation of the record read
    from them: writing the members of [CtrlMessage_of_bytes bs] back gives
    [bs], in either byte order. *)
Theorem X15_control_record_bytes_round_trip (bs : list byte)
    (Hlen : length bs = sizeof_CtrlMessage) :
  bytes_of_CtrlMessage big_endian (CtrlMessage_of_bytes big_endian bs) = bs.
Proof.
  apply bytes_of_CtrlMessage_of_bytes. exact Hlen.
Qed.

(** X16: a control record survives the wire.  A record whose enumeration
    members are in the range of [int] and whose four reserved words are in
    the range of [uint32_t] is stored in 32 bytes, and reading those bytes
    gives the record back. *)
Theorem X16_control_record_round_trip (m : CtrlMessage)
    (Hv : int_range (version m)) (Hc : int_range (cmd m))
    (Hk : int_range (codec_type (video_params m)))
    (Hr : int_range (resolution (video_params m)))
    (Hn : length (reserved (video_params m)) = 4%nat)
    (Hres : Forall uint32_t_range (reserved (video_params m))) :
  length (bytes_of_CtrlMessage big_endian m) = sizeof_CtrlMessage
  /\ CtrlMessage_of_bytes big_endian (bytes_of_CtrlMessage big_endian m) = m.
Proof.
  split; [apply bytes_of_CtrlMessage_length|].
  destruct (CtrlMessage_of_bytes_of big_endian m Hv Hc Hk Hr)
    as (Ev & Ec & Ek & Er).
  destruct m as [v c [k r res]].
  cbn [version cmd video_params codec_type resolution reserved] in *.
  do 4 (destruct res as [|? res]; [discriminate Hn|]).
  destruct res; [|discriminate Hn]. clear Hn.
  repeat match goal with
  | Hf : Forall _ (_ :: _) |- _ => inversion Hf; subst; clear Hf
  end.
  revert Ev Ec Ek Er.
  unfold CtrlMessage_of_bytes.
  cbn [version cmd video_params codec_type resolution reserved].
  intros -> -> -> ->. do 2 f_equal.
  unfold bytes_of_CtrlMessage, bytes_of_VideoParams.
  cbn [version cmd video_params codec_type resolution reserved
       seq map flat_map nth Nat.mul Nat.add].
  pose proof (ReprFacts.to_bytes_length big_endian 4) as L.
  assert (U : forall z, uint32_t_range z ->
                Repr.unsigned_of_bytes big_endian
                  (Repr.to_bytes big_endian 4 z) = z).
  { intros u Hu. rewrite ReprFacts.unsigned_of_to_bytes.
    apply Z.mod_small. exact Hu. }
  unfold sizeof_int, sizeof_uint32_t.
  repeat match goal with
  | |- context [slice (S (S (S (S ?off)))) ?n (Repr.to_bytes _ _ ?x ++ ?ys)] =>
      change (slice (S (S (S (S off)))) n (Repr.to_bytes big_endian 4 x ++ ys))
        with (slice (4 + off) n (Repr.to_bytes big_endian 4 x ++ ys));
      rewrite (slice_app_skip off n 4 (Repr.to_bytes big_endian 4 x) ys)
        by apply L
  end.
  rewrite !slice_app_here by apply L.
  rewrite !U by assumption. reflexivity.
Qed.


(** ** Composed runs *)

Lemma run_terminated (n : nat) (s : Impl) (e : Exception) :
  vhal_talker_thread_ s = Terminated e -> run n s = s.
Proof.
  intros Hr. induction n as [|n IH]; [reflexivity|].
  cbn [Sink.run]. unfold Sink.thread_step. rewrite Hr. exact IH.
Qed.

(** X17: an exception that leaves the handler leaves the thread's function
    too: the thread is terminated after the one handler call, without a
    reset, and no later pass does anything. *)
Theorem X17_handler_exception_ends_the_thread
    (s : Impl) (cb : CameraCallback W) (fd ret_ revents errno : Z)
    (msg : string) (data : list byte) (w1 w2 w3 : W) (n : nat)
    (Hw : (0 < size_t_bytes)%nat)
    (Hat : vhal_talker_thread_ s = AtPoll fd)
    (Hcb : callback_ s = Some cb)
    (Hpoll : poll fd POLLIN timeout_ms (socket_client_ s)
             = ((ret_, revents, errno), w1))
    (Hret : ret_ <> -1) (Hret0 : ret_ <> 0)
    (Hin : Z.land revents POLLIN <> 0)
    (Hrecv : Recv (Z.of_nat sizeof_CtrlMessage) w1
             = (((Z.of_nat sizeof_CtrlMessage, msg), data), w2))
    (Hlen : length data = sizeof_CtrlMessage)
    (Hraise : cb (CtrlMessage_of_bytes big_endian data) w2 = (Raised, w3)) :
  let s' := thread_step s in
  vhal_talker_thread_ s' = Terminated handler_exception
  /\ filter is_Reset (events_since s s') = []
  /\ length (filter is_Callback (events_since s s')) = 1%nat
  /\ run n s' = s'.
Proof.
  intros s'.
  assert (Hr : ssize_t_range (Z.of_nat sizeof_CtrlMessage)).
  { destruct (half_range_big size_t_bytes Hw) as [Hbig _].
    unfold Sink.ssize_t_range. change (Z.of_nat sizeof_CtrlMessage) with 32.
    lia. }
  assert (Es : s'
    = mkImpl (callback_ s) w3 (Terminated handler_exception)
        (should_continue_ s)
        (events s
         ++ [EvPoll fd POLLIN timeout_ms (ret_, revents, errno);
             EvCout ("Camera VHal has some message for us!" ++ nl);
             EvRecv (Z.of_nat sizeof_CtrlMessage)
               (Z.of_nat sizeof_CtrlMessage, msg) data;
             EvCallback (CtrlMessage_of_bytes big_endian data) Raised])).
  { subst s'.
    rewrite (thread_step_readable size_t_bytes big_endian indeterminate
               s fd ret_ revents errno _ msg data w1 w2
               Hat Hpoll Hret Hret0 Hin Hrecv).
    rewrite (to_size_t_eqb_sizeof size_t_bytes _ Hw Hr), Z.eqb_refl.
    rewrite store_full by (rewrite bytes_of_CtrlMessage_length; exact Hlen).
    unfold call_callback. cbn [callback_ socket_client_].
    rewrite Hcb, Hraise.
    unfold with_thread, record, with_socket.
    cbn [callback_ socket_client_ vhal_talker_thread_ should_continue_
         events].
    rewrite <- app_assoc. reflexivity. }
  split; [rewrite Es; reflexivity|].
  erewrite events_since_app by (rewrite Es; reflexivity).
  split; [reflexivity|]. split; [reflexivity|].
  apply (run_terminated n s' handler_exception). rewrite Es. reflexivity.
Qed.

(** X18: after a short read the sink reconnects and polls the new
    descriptor.  With the sink running, the transport not connected after
    the reset and the next [Connect] succeeding, two passes take the thread
    from the reader through the supervisor back into the reader, on the
    descriptor the transport has after connecting. *)
Theorem X18_reconnect_after_short_read
    (s : Impl) (fd ret_ revents errno received : Z) (msg cmsg : string)
    (data : list byte) (w1 w2 w3 : W)
    (Hw : (0 < size_t_bytes)%nat)
    (Hat : vhal_talker_thread_ s = AtPoll fd)
    (Hgo : should_continue_ s = true)
    (Hpoll : poll fd POLLIN timeout_ms (socket_client_ s)
             = ((ret_, revents, errno), w1))
    (Hret : ret_ <> -1) (Hret0 : ret_ <> 0)
    (Hin : Z.land revents POLLIN <> 0)
    (Hrecv : Recv (Z.of_nat sizeof_CtrlMessage) w1
             = (((received, msg), data), w2))
    (Hrange : ssize_t_range received)
    (Hshort : received < Z.of_nat sizeof_CtrlMessage)
    (Hdown : Connected (Reset w2) = false)
    (Hup : Connect (Reset w2) = ((true, cmsg), w3)) :
  run 2 s
  = mkImpl (callback_ s) w3 (AtPoll (GetNativeSocketFd w3)) true
      (events s
       ++ [EvPoll fd POLLIN timeout_ms (ret_, revents, errno);
           EvCout ("Camera VHal has some message for us!" ++ nl);
           EvRecv (Z.of_nat sizeof_CtrlMessage) (received, msg) data;
           EvCout ("Failed to read message from VideoSink: " ++ msg
                   ++ ", reset the connection." ++ nl);
           EvReset;
           EvConnect (true, cmsg);
           EvCout (" Connected to Camera VHal!" ++ nl)]).
Proof.
  cbn [Sink.run].
  rewrite (thread_step_readable size_t_bytes big_endian indeterminate
             s fd ret_ revents errno received msg data w1 w2
             Hat Hpoll Hret Hret0 Hin Hrecv).
  rewrite (to_size_t_eqb_sizeof size_t_bytes received Hw Hrange).
  replace (received =? Z.of_nat sizeof_CtrlMessage) with false
    by (symmetry; apply Z.eqb_neq; lia).
  rewrite thread_step_connect
    by (cbn [vhal_talker_thread_ should_continue_ socket_client_];
        assumption || reflexivity).
  cbn [socket_client_ callback_ events retry_events].
  rewrite Hup. cbn [fst snd].
  rewrite <- !app_assoc. reflexivity.
Qed.

End More.

(** ** The theorems on concrete runs *)

Import Scripted Scenario Scenario2.

Lemma X1_raw_packet_write_fails_witness :
  let s := connected_sink [(-1, "Broken pipe"%string)] [] [] in
  fst (SendRawPacket payload 3 s)
  = (-1, "Error in writing payload to Camera VHal: Broken pipe"%string)
  /\ NeedConnectionReset (socket_client_ (snd (SendRawPacket payload 3 s)))
     = true.
Proof.
  cbv zeta. split; [|reflexivity].
  pose (s := connected_sink [(-1, "Broken pipe"%string)] [] []).
  exact (proj1 (X1_raw_packet_write_fails payload 3 s "Broken pipe"
                  (snd (Send payload 3 (socket_client_ s))) eq_refl)).
Defined.

Lemma X2_data_packet_is_two_raw_packets_witness :
  let s := connected_sink [] [] [] in
  Sink.SendDataPacket 8 false payload 3 s
  = Sink.two_raw_packets 8 false payload 3 s
  /\ sent (socket_client_ (snd (Sink.SendDataPacket 8 false payload 3 s)))
     = [Sink.size_header 8 false 3; payload].
Proof.
  cbv zeta. split; [|reflexivity].
  assert (Hok : fst (fst (Send (Sink.size_header 8 false 3) 8
                             (socket_client_ (connected_sink [] [] []))))
                <> -1) by (vm_compute; discriminate).
  exact (X2_data_packet_is_two_raw_packets 8 false payload 3
           (connected_sink [] [] []) Hok).
Defined.

Lemma X3_data_packet_stops_where_raw_packets_go_on_witness :
  let s := connected_sink [(-1, "Broken pipe"%string)] [] [] in
  sent (socket_client_ (snd (Sink.SendDataPacket 8 false payload 3 s))) = []
  /\ sent (socket_client_ (snd (Sink.two_raw_packets 8 false payload 3 s)))
     = [payload]
  /\ length (filter is_Send
               (events_since s
                  (snd (Sink.two_raw_packets 8 false payload 3 s)))) = 2%nat.
Proof.
  cbv zeta. split; [reflexivity|]. split; [reflexivity|].
  pose (s := connected_sink [(-1, "Broken pipe"%string)] [] []).
  pose (a1 := Send (Sink.size_header 8 false 3) 8 (socket_client_ s)).
  unshelve epose proof
    (X3_data_packet_stops_where_raw_packets_go_on 8 false
       payload 3 s "Broken pipe" (snd a1) _) as [_ P];
    [reflexivity|].
  fold s. rewrite P. reflexivity.
Defined.

Lemma X6_size_header_round_trip_witness :
  Repr.unsigned_of_bytes false (Sink.size_header 8 false 1024) = 1024
  /\ length (Sink.size_header 8 false 1024) = 8%nat.
Proof.
  split; [|reflexivity].
  exact (proj1 (X6_size_header_round_trip 8 false 1024 3
                  ltac:(split; [discriminate | reflexivity])
                  ltac:(split; [discriminate | reflexivity]))).
Defined.

Lemma X7_pass_without_input_only_polls_witness :
  let s := connected_sink [] [] [(1, POLLHUP, 0)] in
  Z.land POLLHUP POLLIN = 0
  /\ vhal_talker_thread_ (Sink.thread_step 8 false garbage s) = AtPoll 7
  /\ events_since s (Sink.thread_step 8 false garbage s)
     = [EvPoll 7 POLLIN Sink.timeout_ms (1, POLLHUP, 0)].
Proof.
  cbv zeta. split; [reflexivity|].
  pose (s := connected_sink [] [] [(1, POLLHUP, 0)]).
  pose (a1 := poll 7 POLLIN Sink.timeout_ms (socket_client_ s)).
  unshelve epose proof
    (X7_pass_without_input_only_polls 8 false garbage s
       7 1 POLLHUP 0 (snd a1) _ _ _ _) as P;
    [reflexivity | reflexivity | discriminate | right; reflexivity |].
  fold s. rewrite P. split; reflexivity.
Defined.

Lemma X8_long_count_resets_witness :
  let s := connected_sink [] [((40, EmptyString), [])] [readable] in
  let s' := Sink.thread_step 8 false garbage s in
  vhal_talker_thread_ s' = AtSupervisor
  /\ filter is_Reset (events_since s s') = [EvReset]
  /\ filter is_Callback (events_since s s') = [].
Proof.
  cbv zeta.
  pose (s := connected_sink [] [((40, EmptyString), [])] [readable]).
  pose (a1 := poll 7 POLLIN Sink.timeout_ms (socket_client_ s)).
  unshelve epose proof
    (X8_long_count_resets 8 false garbage s
       7 1 POLLIN 0 40 EmptyString [] (snd a1) (snd (Recv 32 (snd a1)))
       _ _ _ _ _ _ _ _ _) as P;
    [lia | reflexivity | reflexivity | discriminate | discriminate
    | discriminate | reflexivity | split; [discriminate | reflexivity]
    | reflexivity |].
  fold s. rewrite P. repeat split.
Defined.

Lemma X9_connected_transport_is_not_reconnected_witness :
  let s := Sink.construct already_connected in
  let s' := Sink.thread_step 8 false garbage s in
  vhal_talker_thread_ s' = AtPoll 7
  /\ filter is_Connect (events_since s s') = [].
Proof.
  cbv zeta.
  unshelve epose proof
    (X9_connected_transport_is_not_reconnected 8 false garbage
       (Sink.construct already_connected) _ _ _) as P;
    [reflexivity | reflexivity | reflexivity |].
  rewrite P. split; reflexivity.
Defined.

Lemma X10_stop_seen_at_supervisor_witness :
  let s := Sink.construct (fresh [] [] [] []) in
  Sink.joinable_done (Sink.run 8 false garbage 3 (request_stop s)) = true
  /\ events (Sink.run 8 false garbage 3 (request_stop s)) = [].
Proof.
  cbv zeta.
  unshelve epose proof
    (X10_stop_seen_at_supervisor 8 false garbage
       (Sink.construct (fresh [] [] [] [])) 2 _) as [E J];
    [reflexivity|].
  split; [exact J|]. rewrite E. reflexivity.
Defined.

Lemma X11_stop_seen_after_short_read_witness :
  let s := request_stop
             (connected_sink [] [((0, "peer closed"%string), [])]
                [readable]) in
  should_continue_ s = false
  /\ vhal_talker_thread_ (Sink.run 8 false garbage 2 s) = Returned.
Proof.
  cbv zeta. split; [reflexivity|].
  pose (s := request_stop
               (connected_sink [] [((0, "peer closed"%string), [])]
                  [readable])).
  pose (a1 := poll 7 POLLIN Sink.timeout_ms (socket_client_ s)).
  exact (proj1 (X11_stop_seen_after_short_read 8 false garbage s
                  7 1 POLLIN 0 0 "peer closed" [] (snd a1)
                  (snd (Recv 32 (snd a1)))
                  ltac:(lia) eq_refl eq_refl eq_refl
                  ltac:(discriminate) ltac:(discriminate)
                  ltac:(discriminate) eq_refl
                  ltac:(split; [discriminate | reflexivity])
                  ltac:(reflexivity))).
Defined.

Lemma X12_refused_connection_is_retried_for_ever_witness :
  let s := Sink.construct (Unplugged.mkWorld 0) in
  Sink.always_refuses Unplugged.any
  /\ vhal_talker_thread_ (Sink.run 8 false garbage 4 s) = AtSupervisor
  /\ Unplugged.attempts (socket_client_ (Sink.run 8 false garbage 4 s))
     = 4%nat.
Proof.
  cbv zeta.
  assert (Hq : Sink.always_refuses Unplugged.any).
  { intros w _. repeat split. }
  split; [exact Hq|]. split; [|reflexivity].
  exact (proj1 (X12_refused_connection_is_retried_for_ever 8 false garbage
                  Unplugged.any (Sink.construct (Unplugged.mkWorld 0)) 4
                  Hq eq_refl eq_refl I)).
Defined.

Lemma X14_last_registered_handler_is_called_witness :
  let s0 := connected_sink [] [((32, EmptyString), open_720p_bytes)]
              [readable] in
  let s := snd (RegisterCallback quiet_handler
                  (snd (RegisterCallback throwing_handler s0))) in
  filter is_Callback (events_since s (Sink.thread_step 8 false garbage s))
  = [EvCallback open_720p Normal].
Proof.
  cbv zeta.
  pose (s0 := connected_sink [] [((32, EmptyString), open_720p_bytes)]
                [readable]).
  pose (a1 := poll 7 POLLIN Sink.timeout_ms (socket_client_ s0)).
  exact (proj1 (proj2
           (X14_last_registered_handler_is_called 8 false garbage s0
              throwing_handler quiet_handler
              7 1 POLLIN 0 EmptyString open_720p_bytes
              (snd a1) (snd (Recv 32 (snd a1)))
              ltac:(lia) eq_refl eq_refl
              ltac:(discriminate) ltac:(discriminate) ltac:(discriminate)
              eq_refl eq_refl))).
Defined.

Lemma X15_control_record_bytes_round_trip_witness :
  length open_720p_bytes = sizeof_CtrlMessage
  /\ bytes_of_CtrlMessage true
       (CtrlMessage_of_bytes true open_720p_bytes) = open_720p_bytes.
Proof.
  split; [reflexivity|].
  exact (X15_control_record_bytes_round_trip true open_720p_bytes eq_refl).
Defined.

Lemma X16_control_record_round_trip_witness :
  CtrlMessage_of_bytes true (bytes_of_CtrlMessage true open_720p)
  = open_720p.
Proof.
  refine (proj2 (X16_control_record_round_trip true open_720p
                   _ _ _ _ eq_refl _)).
  1, 2, 3, 4: split; [discriminate | reflexivity].
  repeat constructor; discriminate.
Defined.

Lemma X17_handler_exception_ends_the_thread_witness :
  let s := snd (RegisterCallback throwing_handler
                  (connected_sink [] [((32, EmptyString), open_720p_bytes)]
                     [readable])) in
  vhal_talker_thread_ (Sink.thread_step 8 false garbage s)
  = Terminated handler_exception.
Proof.
  cbv zeta.
  pose (s := snd (RegisterCallback throwing_handler
                    (connected_sink
                       [] [((32, EmptyString), open_720p_bytes)]
                       [readable]))).
  pose (a1 := poll 7 POLLIN Sink.timeout_ms (socket_client_ s)).
  pose (a2 := Recv 32 (snd a1)).
  exact (proj1
           (X17_handler_exception_ends_the_thread 8 false garbage s
              throwing_handler 7 1 POLLIN 0 EmptyString open_720p_bytes
              (snd a1) (snd a2) (snd a2) 5
              ltac:(lia) eq_refl eq_refl eq_refl
              ltac:(discriminate) ltac:(discriminate) ltac:(discriminate)
              eq_refl eq_refl eq_refl)).
Defined.

Lemma X18_reconnect_after_short_read_witness :
  let s := connected_sink [] [((0, "peer closed"%string), [])] [readable] in
  vhal_talker_thread_ (Sink.run 8 false garbage 2 s) = AtPoll 7
  /\ connected (socket_client_ (Sink.run 8 false garbage 2 s)) = true
  /\ filter is_Connect (events_since s (Sink.run 8 false garbage 2 s))
     = [EvConnect (true, EmptyString)].
Proof.
  cbv zeta.
  pose (s := connected_sink [] [((0, "peer closed"%string), [])] [readable]).
  pose (a1 := poll 7 POLLIN Sink.timeout_ms (socket_client_ s)).
  pose (a2 := Recv 32 (snd a1)).
  fold s.
  rewrite (X18_reconnect_after_short_read 8 false garbage s
             7 1 POLLIN 0 0 "peer closed" EmptyString [] (snd a1) (snd a2)
             (snd (Connect (Reset (snd a2))))
             ltac:(lia) eq_refl eq_refl eq_refl
             ltac:(discriminate) ltac:(discriminate) ltac:(discriminate)
             eq_refl
             ltac:(split; [discriminate | reflexivity])
             eq_refl eq_refl eq_refl).
  repeat split.
Defined.

End SinkMore.
